(** * csv2latex-table: escaping, header formatting and table assembly

    A shallow embedding of [csv2latex-table.py] and the properties its
    specification states about it.

    Python strings are sequences of Unicode code points, so a string is a
    list of code points ([N]); [lit] turns a literal into one.  Python
    integers are [Z].  Exceptions are explicit: a computation either returns
    or raises, and [try]/[except] is a combinator of the monad the
    assembler runs in. *)

From Stdlib Require Import String Ascii List ZArith NArith Arith Lia Bool.
From Stdlib Require Decimal.
Import ListNotations.

Local Open Scope Z_scope.

(** ** Strings *)

Definition pystr := list N.

Definition lit (s : string) : pystr :=
  List.map N_of_ascii (list_ascii_of_string s).

(** The line feed, which no literal can hold. *)
Definition nl : pystr := [10%N].

Fixpoint str_eqb (a b : pystr) : bool :=
  match a, b with
  | [], [] => true
  | x :: a', y :: b' => N.eqb x y && str_eqb a' b'
  | _, _ => false
  end.

(** Truth value of a string: the empty string is false. *)
Definition truthy (s : pystr) : bool :=
  match s with [] => false | _ :: _ => true end.

(** [x in l] for a list of strings. *)
Definition str_in (x : pystr) (l : list pystr) : bool :=
  existsb (str_eqb x) l.

(** [str.isspace] on one code point, as CPython's [_PyUnicode_IsWhitespace]. *)
Definition isspace (c : N) : bool :=
  (((9 <=? c) && (c <=? 13)) || ((28 <=? c) && (c <=? 32))
   || (c =? 133) || (c =? 160) || (c =? 5760)
   || ((8192 <=? c) && (c <=? 8202))
   || (c =? 8232) || (c =? 8233) || (c =? 8239) || (c =? 8287)
   || (c =? 12288))%N.

Fixpoint lstrip (s : pystr) : pystr :=
  match s with
  | c :: t => if isspace c then lstrip t else s
  | [] => []
  end.

Definition rstrip (s : pystr) : pystr := rev (lstrip (rev s)).

(** [s.strip()] *)
Definition strip (s : pystr) : pystr := rstrip (lstrip s).

Fixpoint is_prefix (p s : pystr) : bool :=
  match p, s with
  | [], _ => true
  | a :: p', b :: s' => N.eqb a b && is_prefix p' s'
  | _ :: _, [] => false
  end.

(** Left-to-right scan of [s.replace(old, new)] for a non-empty [old];
    [skip] counts the characters of a match still to be passed over. *)
Fixpoint replace_from (old new : pystr) (skip : nat) (s : pystr) : pystr :=
  match s with
  | [] => []
  | c :: t =>
      match skip with
      | S k => replace_from old new k t
      | O =>
          if is_prefix old s
          then new ++ replace_from old new (length old - 1) t
          else c :: replace_from old new 0 t
      end
  end.

(** [s.replace(old, new)]: every non-overlapping occurrence, from the left;
    an empty [old] matches before every character and at the end. *)
Definition replace (old new s : pystr) : pystr :=
  match old with
  | [] => new ++ flat_map (fun c => c :: new) s
  | _ :: _ => replace_from old new 0 s
  end.

(** [sep.join(l)] *)
Fixpoint join (sep : pystr) (l : list pystr) : pystr :=
  match l with
  | [] => []
  | [x] => x
  | x :: rest => x ++ sep ++ join sep rest
  end.

Fixpoint uint_codes (d : Decimal.uint) : pystr :=
  match d with
  | Decimal.Nil => []
  | Decimal.D0 d => 48%N :: uint_codes d
  | Decimal.D1 d => 49%N :: uint_codes d
  | Decimal.D2 d => 50%N :: uint_codes d
  | Decimal.D3 d => 51%N :: uint_codes d
  | Decimal.D4 d => 52%N :: uint_codes d
  | Decimal.D5 d => 53%N :: uint_codes d
  | Decimal.D6 d => 54%N :: uint_codes d
  | Decimal.D7 d => 55%N :: uint_codes d
  | Decimal.D8 d => 56%N :: uint_codes d
  | Decimal.D9 d => 57%N :: uint_codes d
  end.

(** [str(n)] for an integer. *)
Definition str_of_int (z : Z) : pystr :=
  match Z.to_int z with
  | Decimal.Pos d => uint_codes d
  | Decimal.Neg d => 45%N :: uint_codes d
  end.

(** ** Cell escaper *)

(** The argument of [escape_latex]: a string, or any other object, of which
    the function only uses [str(s)]. *)
Inductive value : Type :=
| VStr (s : pystr)
| VObj (str_form : pystr).

(** The coercion of lines 18-19. *)
Definition to_str (v : value) : pystr :=
  match v with
  | VStr s => s
  | VObj f => f
  end.

Definition textemdash : pystr := lit "\textemdash".

Definition missing_values : list pystr :=
  [ lit ""; lit "NA"; lit "N/A"; lit "NaN"; lit "None"; lit "\"; lit "//";
    lit "---"; lit "_" ].

Definition replacements : list (pystr * pystr) :=
  [ (lit "\", lit "\textbackslash{}");
    (lit "&", lit "\&");
    (lit "%", lit "\%");
    (lit "$", lit "\$");
    (lit "#", lit "\#");
    (lit "_", lit "\_");
    (lit "{", lit "\{");
    (lit "}", lit "\}");
    (lit "~", lit "\textasciitilde{}");
    (lit "^", lit "\textasciicircum{}");
    (lit "<", lit "\textless{}");
    (lit ">", lit "\textgreater{}");
    (lit "[", lit "{[}");
    (lit "]", lit "{]}") ].

(** The loop of lines 46-47. *)
Definition apply_replacements (table : list (pystr * pystr)) (s : pystr) : pystr :=
  fold_left (fun acc '(orig, repl) => replace orig repl acc) table s.

Definition escape_latex (v : value) : pystr :=
  let s := to_str v in
  if str_in (strip s) missing_values then textemdash
  else if str_eqb (strip s) (lit "/") then lit "/"
  else apply_replacements replacements s.

(** ** Header subgroup formatter *)

(** [cell and cell != r'\textemdash'] *)
Definition populated (cell : pystr) : bool :=
  truthy cell && negb (str_eqb cell textemdash).

(** The scan of lines 65-72, from index [i] on, with the loop's two
    variables as accumulators. *)
Fixpoint scan_subgroups (cells : list pystr) (i : nat)
         (subgroup_ranges : list (Z * Z)) (start_idx : option Z)
  : list (Z * Z) * option Z :=
  match cells with
  | [] => (subgroup_ranges, start_idx)
  | cell :: rest =>
      if populated cell then
        match start_idx with
        | Some s =>
            scan_subgroups rest (S i)
              (subgroup_ranges ++ [(s, Z.of_nat i - 1)]) None
        | None => scan_subgroups rest (S i) subgroup_ranges start_idx
        end
      else
        match start_idx with
        | None => scan_subgroups rest (S i) subgroup_ranges (Some (Z.of_nat i))
        | Some _ => scan_subgroups rest (S i) subgroup_ranges start_idx
        end
  end.

(** Lines 61-74: the ranges of a row. *)
Definition find_subgroups (row : list pystr) : list (Z * Z) :=
  let n := Z.of_nat (length row) in
  let '(subgroup_ranges, start_idx) := scan_subgroups row 0 [] None in
  match start_idx with
  | Some s => subgroup_ranges ++ [(s, n - 1)]
  | None => subgroup_ranges
  end.

Definition in_range (i : Z) (r : Z * Z) : bool :=
  (fst r <=? i) && (i <=? snd r).

(** [any(start <= i <= end for start, end in subgroup_ranges)] *)
Definition in_subgroup (i : Z) (subgroup_ranges : list (Z * Z)) : bool :=
  existsb (in_range i) subgroup_ranges.

(** Line 83; [prev_row] is [None] or a list, and an empty list is false. *)
Definition prev_has_content (prev_row : option (list pystr)) (i : nat) : bool :=
  match prev_row with
  | None => false
  | Some p =>
      match p with [] => false | _ :: _ => true end
      && (i <? length p)%nat
      && match nth_error p i with
         | Some c => truthy c && negb (str_eqb c textemdash)
         | None => false
         end
  end.

(** The directive of line 91. *)
Definition cmidrule (r : Z * Z) : pystr :=
  lit "\cmidrule(lr){" ++ (str_of_int (fst r + 1) ++ lit "-" ++ str_of_int (snd r + 1))
    ++ lit "}" ++ nl.

(** What one iteration of the loop of lines 77-95 appends to [processed]. *)
Definition format_cell (subgroup_ranges : list (Z * Z))
           (prev_row : option (list pystr)) (i : nat) (cell : pystr)
  : list pystr :=
  if populated cell then
    (if in_subgroup (Z.of_nat i) subgroup_ranges && negb (prev_has_content prev_row i)
     then match find (in_range (Z.of_nat i)) subgroup_ranges with
          | Some r => [cmidrule r]
          | None => []
          end
     else [])
    ++ [cell]
  else [lit ""].

Fixpoint format_cells (subgroup_ranges : list (Z * Z))
         (prev_row : option (list pystr)) (i : nat) (cells : list pystr)
         (processed : list pystr) : list pystr :=
  match cells with
  | [] => processed
  | cell :: rest =>
      format_cells subgroup_ranges prev_row (S i) rest
        (processed ++ format_cell subgroup_ranges prev_row i cell)
  end.

Definition process_header_row (row : list pystr) (prev_row : option (list pystr))
  : list pystr :=
  format_cells (find_subgroups row) prev_row 0 row [].

(** ** Exceptions, the console and the file system *)

(** An exception with [str(e)]; everything raised here derives from
    Python's [Exception]. *)
Inductive exn : Type := Exception (msg : pystr).

Definition exn_str (e : exn) : pystr := let 'Exception m := e in m.

Inductive result (A : Type) : Type :=
| Ret (a : A)
| Raise (e : exn).
Arguments Ret {A} a.
Arguments Raise {A} e.

Definition table := list (list pystr).

(** What the outside world answers: the detector's guess for a file (the
    body of the [try] of lines 9-12: [result['encoding']], or an
    exception), the rows that opening and reading a file under an encoding
    gives (lines 121-123), and whether opening the output, the k-th
    [write] and the closing [with] succeed. *)
Record world : Type := {
  chardet_guess : pystr -> result (option pystr);
  read_csv : pystr -> pystr -> result table;
  open_w : pystr -> option exn;
  write_fail : nat -> option exn;
  close_fail : option exn
}.

(** The console, the strings of the output file, and the number of
    [write] calls so far.  [written] is what the file holds as long as it
    has not been opened; from the opening on it is the sequence of
    strings that [write] has accepted, which the file object buffers and
    which are the content of the file once it is closed without an
    error. *)
Record state : Type := {
  stdout : list pystr;
  written : list pystr;
  nwrites : nat
}.

Definition M (A : Type) : Type := state -> result A * state.

Definition ret {A} (a : A) : M A := fun st => (Ret a, st).

Definition bind {A B} (m : M A) (k : A -> M B) : M B :=
  fun st =>
    match m st with
    | (Ret a, st') => k a st'
    | (Raise e, st') => (Raise e, st')
    end.

Definition lift {A} (r : result A) : M A := fun st => (r, st).

Notation "x <- m ;; k" := (bind m (fun x => k))
  (at level 61, m at next level, right associativity).
Notation "m ;;; k" := (bind m (fun _ => k))
  (at level 61, right associativity).

(** [try: body except Exception as e: handler] *)
Definition try_except {A} (body : M A) (handler : exn -> M A) : M A :=
  fun st =>
    match body st with
    | (Ret a, st') => (Ret a, st')
    | (Raise e, st') => handler e st'
    end.

Definition print (line : pystr) : M unit :=
  fun st =>
    (Ret tt, {| stdout := stdout st ++ [line];
                written := written st; nwrites := nwrites st |}).

(** [f.write(chunk)]: the call raises, or the file object accepts the
    string. *)
Definition write (w : world) (chunk : pystr) : M unit :=
  fun st =>
    match write_fail w (nwrites st) with
    | Some e =>
        (Raise e, {| stdout := stdout st; written := written st;
                     nwrites := S (nwrites st) |})
    | None =>
        (Ret tt, {| stdout := stdout st; written := written st ++ [chunk];
                    nwrites := S (nwrites st) |})
    end.

(** [with open(path, 'w', encoding='utf-8') as f: body]: the file is
    truncated when it opens, and closed when the body ends, whether it
    returns or raises; an exception of the closing is the one that
    leaves the [with], also when the body has raised. *)
Definition with_open_w (w : world) (path : pystr) (body : M unit) : M unit :=
  fun st =>
    match open_w w path with
    | Some e => (Raise e, st)
    | None =>
        match body {| stdout := stdout st; written := []; nwrites := nwrites st |} with
        | (Ret _, st') =>
            match close_fail w with
            | Some e => (Raise e, st')
            | None => (Ret tt, st')
            end
        | (Raise e, st') =>
            match close_fail w with
            | Some e' => (Raise e', st')
            | None => (Raise e, st')
            end
        end
    end.

(** [for i, x in enumerate(l): body], counting from [i]. *)
Fixpoint for_enumerate {A} (i : nat) (l : list A) (body : nat -> A -> M unit)
  : M unit :=
  match l with
  | [] => ret tt
  | x :: rest => body i x ;;; for_enumerate (S i) rest body
  end.

(** [for x in l: body] *)
Fixpoint for_each {A} (l : list A) (body : A -> M unit) : M unit :=
  match l with
  | [] => ret tt
  | x :: rest => body x ;;; for_each rest body
  end.

(** [l[i]]: a negative index counts from the end, and an index out of
    range raises [IndexError]. *)
Definition py_index {A} (l : list A) (i : Z) : result A :=
  let j := if i <? 0 then Z.of_nat (length l) + i else i in
  if j <? 0 then Raise (Exception (lit "list index out of range"))
  else match nth_error l (Z.to_nat j) with
       | Some x => Ret x
       | None => Raise (Exception (lit "list index out of range"))
       end.

(** [max(...)] of a sequence of lengths; empty, it raises [ValueError]. *)
Definition py_max (l : list nat) : result nat :=
  match l with
  | [] => Raise (Exception (lit "max() arg is an empty sequence"))
  | x :: rest => Ret (fold_left Nat.max rest x)
  end.

(** [range(a, b)] *)
Definition range (a b : Z) : list Z :=
  map (fun k => a + Z.of_nat k) (seq 0 (Z.to_nat (b - a))).

(** ** Encoding resolver *)

Definition detect_encoding (w : world) (file_path : pystr) : pystr :=
  match chardet_guess w file_path with
  | Ret (Some enc) => if truthy enc then enc else lit "utf-8"
  | Ret None => lit "utf-8"
  | Raise _ => lit "utf-8"
  end.

Definition nonempty {A} (l : list A) : bool :=
  match l with [] => false | _ :: _ => true end.

(** The loop of lines 119-128, with [data] as it stands when the loop
    reaches [encs]. *)
Fixpoint read_loop (w : world) (input_csv : pystr) (encs : list pystr)
         (data : table) : M table :=
  match encs with
  | [] => ret data
  | enc :: rest =>
      match read_csv w input_csv enc with
      | Ret rows =>
          if nonempty rows
          then print (lit "Successfully read with " ++ enc ++ lit " encoding") ;;;
               ret rows
          else read_loop w input_csv rest rows
      | Raise e =>
          print (lit "Failed with " ++ enc ++ lit ": " ++ exn_str e) ;;;
          read_loop w input_csv rest data
      end
  end.

Definition encodings_to_try (encoding : pystr) : list pystr :=
  [encoding; lit "latin1"; lit "cp1252"; lit "iso-8859-1"; lit "utf-16"].

(** ** Table assembler *)

(** Lines 144-150. *)
Definition pad_rows (ncols : nat) (data : table) : table :=
  map (fun row =>
         if (length row <? ncols)%nat
         then row ++ repeat (lit "") (ncols - length row)
         else row) data.

Definition escape_row (row : list pystr) : list pystr :=
  map (fun cell => escape_latex (VStr cell)) row.

(** [header_rows[-1] if header_rows else None] *)
Definition last_or_none (header_rows : table) : option (list pystr) :=
  match header_rows with
  | [] => None
  | _ :: _ => Some (last header_rows [])
  end.

(** The loop of lines 154-157 over the indices [idxs] still to come. *)
Fixpoint header_loop (data : table) (idxs : list Z) (header_rows : table)
  : result table :=
  match idxs with
  | [] => Ret header_rows
  | i :: rest =>
      match py_index data i with
      | Raise e => Raise e
      | Ret r =>
          let escaped_row := escape_row r in
          let prev_row := last_or_none header_rows in
          header_loop data rest
            (header_rows ++ [process_header_row escaped_row prev_row])
      end
  end.

(** The loop of lines 161-162. *)
Fixpoint data_loop (data : table) (idxs : list Z) (rows : table)
  : result table :=
  match idxs with
  | [] => Ret rows
  | i :: rest =>
      match py_index data i with
      | Raise e => Raise e
      | Ret r => data_loop data rest (rows ++ [escape_row r])
      end
  end.

(** The float [2.0] of line 165 is only ever formatted. *)
Definition base_width : pystr := lit "2.0".

Definition col_spec (wd : pystr) : pystr :=
  lit ">{\raggedright\arraybackslash}p{" ++ wd ++ lit "cm}".

Definition row_sep : pystr := lit " & ".

(** [" & ".join(row) + r" \\" + "\n"] *)
Definition render_row (row : list pystr) : pystr :=
  join row_sep row ++ lit " \\" ++ nl.

(** The header block of lines 193-200 and 208-211. *)
Definition write_header_block (w : world) (header_rows : table) : M unit :=
  for_enumerate 0 header_rows (fun i row =>
    write w (render_row row) ;;;
    if Z.of_nat i =? Z.of_nat (length header_rows) - 1
    then write w (lit "\bottomrule" ++ nl)
    else ret tt).

(** The body of the [with] of lines 170-231. *)
Definition write_document (w : world) (caption label : pystr) (landscape : bool)
           (ncols : nat) (widths : list pystr) (header_rows rows : table)
  : M unit :=
  (if landscape then write w (lit "\begin{landscape}" ++ nl) else ret tt) ;;;
  write w (lit "{\footnotesize" ++ nl) ;;;
  write w (lit "\setlength\LTleft{0pt}" ++ nl) ;;;
  write w (lit "\setlength\LTright{0pt}" ++ nl ++ nl) ;;;
  write w (lit "\begin{longtable}[p]{" ++ nl) ;;;
  (let col_specs := map col_spec widths in
   write w (lit "    " ++ join (nl ++ lit "    ") col_specs ++ nl)) ;;;
  write w (lit "}" ++ nl ++ nl) ;;;
  write w (lit "\caption{" ++ caption ++ lit "}" ++ nl) ;;;
  write w (lit "\label{" ++ label ++ lit "}" ++ lit " \\" ++ nl) ;;;
  write w (lit "\toprule" ++ nl) ;;;
  write_header_block w header_rows ;;;
  write w (lit "\endfirsthead" ++ nl ++ nl) ;;;
  write w (lit "\multicolumn{" ++ str_of_int (Z.of_nat ncols)
           ++ lit "}{c}{{\bfseries \tablename\ \thetable{} -- continued from previous page}} \\"
           ++ nl) ;;;
  write w (lit "\toprule" ++ nl) ;;;
  write_header_block w header_rows ;;;
  write w (lit "\endhead" ++ nl ++ nl) ;;;
  write w (lit "\bottomrule" ++ nl) ;;;
  write w (lit "\multicolumn{" ++ str_of_int (Z.of_nat ncols)
           ++ lit "}{r}{{Continued on next page}} \\" ++ nl) ;;;
  write w (lit "\endfoot" ++ nl ++ nl) ;;;
  write w (lit "\bottomrule" ++ nl) ;;;
  write w (lit "\endlastfoot" ++ nl ++ nl) ;;;
  for_each rows (fun row => write w (render_row row)) ;;;
  write w (lit "\end{longtable}" ++ nl) ;;;
  write w (lit "}" ++ nl) ;;;
  (if landscape then write w (lit "\end{landscape}" ++ nl) else ret tt).

Definition csv_to_latex_table (w : world) (input_csv output_tex caption label : pystr)
           (landscape : bool) (header_lines : Z) : M bool :=
  let encoding := detect_encoding w input_csv in
  print (lit "Detected encoding: " ++ encoding) ;;;
  data <- read_loop w input_csv (encodings_to_try encoding) [] ;;
  if negb (nonempty data) then
    print (lit "Error: Could not read CSV data") ;;; ret false
  else if Z.of_nat (length data) <? header_lines then
    print (lit "Error: Not enough rows for " ++ str_of_int header_lines
           ++ lit " header lines") ;;;
    ret false
  else
    ncols <- lift (py_max (map (@length pystr) data)) ;;
    print (lit "Detected " ++ str_of_int (Z.of_nat ncols) ++ lit " columns in CSV") ;;;
    let data := pad_rows ncols data in
    header_rows <- lift (header_loop data (range 0 header_lines) []) ;;
    rows <- lift (data_loop data (range header_lines (Z.of_nat (length data))) []) ;;
    let widths := repeat base_width ncols in
    try_except
      (with_open_w w output_tex
         (write_document w caption label landscape ncols widths header_rows rows) ;;;
       ret true)
      (fun e => print (lit "Error writing LaTeX: " ++ exn_str e) ;;; ret false).

(** ** Predicates of the statements *)

(** Column [k] of [row] holds a blank cell. *)
Definition blank_at (row : list pystr) (k : Z) : Prop :=
  0 <= k /\ exists c, nth_error row (Z.to_nat k) = Some c /\ populated c = false.

(** A range that covers blank cells only. *)
Definition range_blank (row : list pystr) (r : Z * Z) : Prop :=
  forall k, fst r <= k <= snd r -> blank_at row k.

(** The run the scan has open at index [i] covers blank cells only. *)
Definition open_run_blank (row : list pystr) (start_idx : option Z) (i : nat) : Prop :=
  match start_idx with
  | Some s => 0 <= s < Z.of_nat i /\ forall k, s <= k < Z.of_nat i -> blank_at row k
  | None => True
  end.


(** What the whole substitution sequence makes of one character. *)
Definition escaped_char (c : N) : pystr := apply_replacements replacements [c].

(** Every pattern of the table is one character long. *)
Definition one_char_keys (table : list (pystr * pystr)) : Prop :=
  Forall (fun p => exists o, fst p = [o]) table.

(** ** The assembler, in the words of the statements *)

(** The formatter's result when no directive is due anywhere. *)
Definition blank_or_copy (row : list pystr) : list pystr :=
  map (fun cell => if populated cell then cell else lit "") row.

(** The i-th header row as the specification has it: the escaped row
    formatted under the previous row's escaped form. *)
Definition spec_header_row (data : table) (i : nat) : list pystr :=
  process_header_row (escape_row (nth i data []))
    (match i with
     | O => None
     | S j => Some (escape_row (nth j data []))
     end).

Definition ncols_of (data : table) : nat := list_max (map (@length pystr) data).

(** The rows of the first candidate encoding that gives any. *)
Fixpoint loaded (w : world) (input_csv : pystr) (encs : list pystr) : table :=
  match encs with
  | [] => []
  | enc :: rest =>
      match read_csv w input_csv enc with
      | Ret (r :: rows) => r :: rows
      | _ => loaded w input_csv rest
      end
  end.

(** No candidate encoding gives a non-empty list of rows. *)
Definition no_rows (w : world) (input_csv : pystr) (encs : list pystr) : Prop :=
  Forall (fun enc => forall rows, read_csv w input_csv enc = Ret rows -> rows = []) encs.

(** [for chunk in chunks: f.write(chunk)] *)
Definition write_all (w : world) (chunks : list pystr) : M unit :=
  for_each chunks (write w).

(** A computation that does nothing but write [chunks] in order. *)
Definition writes (w : world) (m : M unit) (chunks : list pystr) : Prop :=
  forall st, m st = write_all w chunks st.

Definition header_block (header_rows : table) : list pystr :=
  map render_row header_rows
  ++ (if nonempty header_rows then [lit "\bottomrule" ++ nl] else []).

(** The strings the body of the [with] writes, in order. *)
Definition document (caption label : pystr) (landscape : bool) (ncols : nat)
           (widths : list pystr) (header_rows rows : table) : list pystr :=
  (if landscape then [lit "\begin{landscape}" ++ nl] else [])
  ++ [lit "{\footnotesize" ++ nl]
  ++ [lit "\setlength\LTleft{0pt}" ++ nl]
  ++ [lit "\setlength\LTright{0pt}" ++ nl ++ nl]
  ++ [lit "\begin{longtable}[p]{" ++ nl]
  ++ [lit "    " ++ join (nl ++ lit "    ") (map col_spec widths) ++ nl]
  ++ [lit "}" ++ nl ++ nl]
  ++ [lit "\caption{" ++ caption ++ lit "}" ++ nl]
  ++ [lit "\label{" ++ label ++ lit "}" ++ lit " \\" ++ nl]
  ++ [lit "\toprule" ++ nl]
  ++ header_block header_rows
  ++ [lit "\endfirsthead" ++ nl ++ nl]
  ++ [lit "\multicolumn{" ++ str_of_int (Z.of_nat ncols)
      ++ lit "}{c}{{\bfseries \tablename\ \thetable{} -- continued from previous page}} \\"
      ++ nl]
  ++ [lit "\toprule" ++ nl]
  ++ header_block header_rows
  ++ [lit "\endhead" ++ nl ++ nl]
  ++ [lit "\bottomrule" ++ nl]
  ++ [lit "\multicolumn{" ++ str_of_int (Z.of_nat ncols)
      ++ lit "}{r}{{Continued on next page}} \\" ++ nl]
  ++ [lit "\endfoot" ++ nl ++ nl]
  ++ [lit "\bottomrule" ++ nl]
  ++ [lit "\endlastfoot" ++ nl ++ nl]
  ++ map render_row rows
  ++ [lit "\end{longtable}" ++ nl]
  ++ [lit "}" ++ nl]
  ++ (if landscape then [lit "\end{landscape}" ++ nl] else []).

(** The header rows and the data rows of a table read from the file. *)
Definition header_rows_of (data : table) (header_lines : Z) : table :=
  map (fun r => process_header_row (escape_row r) None)
      (firstn (Z.to_nat header_lines) (pad_rows (ncols_of data) data)).

Definition data_rows_of (data : table) (header_lines : Z) : table :=
  map escape_row (skipn (Z.to_nat header_lines) (pad_rows (ncols_of data) data)).

Definition document_of (caption label : pystr) (landscape : bool)
           (data : table) (header_lines : Z) : list pystr :=
  document caption label landscape (ncols_of data)
    (repeat base_width (ncols_of data))
    (header_rows_of data header_lines) (data_rows_of data header_lines).

(** Opening the output, one of the [n] writes from the [k0]-th on, or the
    closing fails. *)
Definition output_error (w : world) (output_tex : pystr) (k0 n : nat) : Prop :=
  open_w w output_tex <> None
  \/ (exists k, (k < n)%nat /\ write_fail w (k0 + k) <> None)
  \/ close_fail w <> None.

(** The last line on the console reports a failure. *)
Definition diagnostic_printed (header_lines : Z) (st : state) : Prop :=
  let line := last (stdout st) [] in
  line = lit "Error: Could not read CSV data"
  \/ line = lit "Error: Not enough rows for " ++ str_of_int header_lines
            ++ lit " header lines"
  \/ exists e, line = lit "Error writing LaTeX: " ++ exn_str e.

(** A world for examples: every encoding reads the same two rows, and
    nothing fails. *)
Definition sample_world : world :=
  {| chardet_guess := fun _ => Ret (Some (lit "ascii"));
     read_csv := fun _ _ => Ret [[lit "Name"; lit "Value"]; [lit "a_b"]];
     open_w := fun _ => None;
     write_fail := fun _ => None;
     close_fail := None |}.

Definition empty_state : state := {| stdout := []; written := []; nwrites := 0 |}.

(** The number of places where the separator token occurs in a line. *)
Fixpoint count_sep (s : pystr) : nat :=
  match s with
  | [] => 0
  | _ :: t => (if is_prefix row_sep s then 1 else 0) + count_sep t
  end.

(** Every ampersand of [s] comes right after a backslash; [prev] is the
    character before [s]. *)
Fixpoint amp_guarded (prev : N) (s : pystr) : bool :=
  match s with
  | [] => true
  | c :: t => (negb (N.eqb c 38) || N.eqb prev 92) && amp_guarded c t
  end.

Definition amp_free (s : pystr) : bool := forallb (fun c => negb (N.eqb c 38)) s.

(** The first character of [s], if any, is not an ampersand. *)
Definition no_leading_amp (s : pystr) : Prop :=
  match s with
  | [] => True
  | c :: _ => c <> 38%N
  end.

(** The characters the table has a pattern for. *)
Definition special_chars : list N :=
  [92; 38; 37; 36; 35; 95; 123; 125; 126; 94; 60; 62; 91; 93]%N.

(** A cell whose ampersands are all escaped, from its first character on. *)
Definition cell_guarded (cell : pystr) : Prop := amp_guarded 0 cell = true.

(** ** Further predicates *)

(** The blank cells below column [i] are in a range, or in the run still
    open at [i]. *)
Definition blanks_covered (row : list pystr) (ranges : list (Z * Z))
           (start_idx : option Z) (i : nat) : Prop :=
  (forall k, 0 <= k < Z.of_nat i -> blank_at row k ->
             in_subgroup k ranges = true
             \/ exists s, start_idx = Some s /\ s <= k)
  /\ (forall s, start_idx = Some s -> s < Z.of_nat i).

(** Ranges that are not empty, start at [lo] or later, come in increasing
    order and leave at least one column between one and the next. *)
Fixpoint separated (lo : Z) (ranges : list (Z * Z)) : Prop :=
  match ranges with
  | [] => True
  | r :: rest => lo <= fst r <= snd r /\ separated (snd r + 2) rest
  end.

(** Where the scan stands at column [i]: the ranges closed so far end two
    columns or more before the open run, or before [i]. *)
Definition ends_before (ranges : list (Z * Z)) (start_idx : option Z) (i : nat)
  : Prop :=
  match start_idx with
  | Some s => 0 <= s < Z.of_nat i /\ Forall (fun r => snd r + 2 <= s) ranges
  | None => Forall (fun r => snd r + 2 <= Z.of_nat i) ranges
  end.

(** Every [k] in [s] comes right after a backslash; [prev] is the
    character before [s]. *)
Fixpoint char_guarded (k prev : N) (s : pystr) : bool :=
  match s with
  | [] => true
  | c :: t => (negb (N.eqb c k) || N.eqb prev 92) && char_guarded k c t
  end.

(** [s] does not hold the character [k]. *)
Definition char_free (k : N) (s : pystr) : bool :=
  forallb (fun c => negb (N.eqb c k)) s.

(** The characters the table escapes by a backslash before them, except
    for the braces: ampersand, percent, dollar, hash, underscore. *)
Definition backslash_escaped : list N := [38; 37; 36; 35; 95]%N.

(** The characters the table spells out: tilde, caret, less, greater. *)
Definition spelled_out : list N := [126; 94; 60; 62]%N.

(** What the attempts on [encs] print when none of them gives a row: one
    line for each that raises. *)
Definition failure_lines (w : world) (input_csv : pystr) (encs : list pystr)
  : list pystr :=
  flat_map (fun enc =>
              match read_csv w input_csv enc with
              | Raise e => [lit "Failed with " ++ enc ++ lit ": " ++ exn_str e]
              | Ret _ => []
              end) encs.

(** A world in which every attempt to read the input raises. *)
Definition unreadable_world : world :=
  {| chardet_guess := fun _ => Ret None;
     read_csv := fun _ _ => Raise (Exception (lit "invalid start byte"));
     open_w := fun _ => None;
     write_fail := fun _ => None;
     close_fail := None |}.

(** A world that reads like [sample_world] and whose output is as the
    three arguments say. *)
Definition output_world (o : pystr -> option exn) (wf : nat -> option exn)
           (c : option exn) : world :=
  {| chardet_guess := chardet_guess sample_world;
     read_csv := read_csv sample_world;
     open_w := o;
     write_fail := wf;
     close_fail := c |}.

(** ** The script *)

(** The configuration of lines 243-248. *)
Definition INPUT_CSV : pystr := lit "Book1.csv".
Definition OUTPUT_TEX : pystr := lit "output.tex".
Definition TABLE_CAPTION : pystr := lit "Controller Configurations Summary".
Definition TABLE_LABEL : pystr := lit "tab:controller_configs".
Definition LANDSCAPE_MODE : bool := true.
Definition HEADER_LINES : Z := 2.

(** The text of the first [print], lines 255-259. *)
Definition banner : pystr :=
  lit "Converting CSV to LaTeX table:" ++ nl
  ++ lit "  Input:        " ++ INPUT_CSV ++ nl
  ++ lit "  Output:       " ++ OUTPUT_TEX ++ nl
  ++ lit "  Landscape:    " ++ (if LANDSCAPE_MODE then lit "Yes" else lit "No") ++ nl
  ++ lit "  Header lines: " ++ str_of_int HEADER_LINES.

(** Lines 254-282.  [path_exists] answers [os.path.exists]; the result
    is the status of [sys.exit] when the script calls it, and [None]
    when the script runs to its end. *)
Definition main (w : world) (path_exists : pystr -> bool) : M (option Z) :=
  print banner ;;;
  if negb (path_exists INPUT_CSV) then
    print (lit "Error: Input file not found at '" ++ INPUT_CSV ++ lit "'") ;;;
    ret (Some 1)
  else
    success <- csv_to_latex_table w INPUT_CSV OUTPUT_TEX TABLE_CAPTION
                 TABLE_LABEL LANDSCAPE_MODE HEADER_LINES ;;
    (if success : bool then
       print (nl ++ lit "Successfully generated LaTeX table!") ;;;
       print (lit "Required LaTeX packages:" ++ nl
              ++ lit "\usepackage{array, longtable, lscape, booktabs}") ;;;
       print (nl ++ lit "Example of how the header will look:") ;;;
       print (lit "Ref & Methods & data requirements & \multicolumn{3}{c}{Predicted variables} \\") ;;;
       print (lit "& & & a & b & c \\")
     else
       print (nl ++ lit "Conversion failed. Check error messages above.")) ;;;
    ret None.


(** The data rows for a header line count that may be below zero, where
    the data loop counts from the end of the table first. *)
Definition data_rows_from (data : table) (header_lines : Z) : table :=
  let padded := pad_rows (ncols_of data) data in
  map escape_row
      ((if header_lines <? 0
        then skipn (Z.to_nat (Z.of_nat (length data) + header_lines)) padded
        else [])
       ++ skipn (Z.to_nat header_lines) padded).

Definition document_from (caption label : pystr) (landscape : bool)
           (data : table) (header_lines : Z) : list pystr :=
  document caption label landscape (ncols_of data)
    (repeat base_width (ncols_of data))
    (header_rows_of data header_lines) (data_rows_from data header_lines).

(** * Properties *)

(** ** Strings *)

Lemma str_eqb_eq (a b : pystr) : str_eqb a b = true <-> a = b.
Proof.
  revert b; induction a as [|x a IH]; intros [|y b]; simpl; split;
    try congruence; try discriminate.
  - rewrite andb_true_iff, N.eqb_eq, IH. intros [-> ->]; reflexivity.
  - intros [= -> ->]. rewrite N.eqb_refl. simpl. apply IH; reflexivity.
Qed.

Lemma str_eqb_refl (a : pystr) : str_eqb a a = true.
Proof. apply str_eqb_eq; reflexivity. Qed.

Lemma str_in_In (x : pystr) (l : list pystr) : str_in x l = true <-> In x l.
Proof.
  unfold str_in. rewrite existsb_exists. split.
  - intros (y & Hy & E). apply str_eqb_eq in E. subst; assumption.
  - intros H. exists x. split; [assumption | apply str_eqb_refl].
Qed.

(** ** Header subgroup formatter *)

Section Formatter.

Variable row : list pystr.

Lemma scan_subgroups_blank (cells : list pystr) :
  forall (pre post : list pystr) (ranges : list (Z * Z)) (start_idx : option Z),
    row = pre ++ cells ++ post ->
    Forall (range_blank row) ranges ->
    open_run_blank row start_idx (length pre) ->
    Forall (range_blank row)
      (fst (scan_subgroups cells (length pre) ranges start_idx))
    /\ open_run_blank row
         (snd (scan_subgroups cells (length pre) ranges start_idx))
         (length pre + length cells).
Proof.
  induction cells as [|cell rest IH]; intros pre post ranges start_idx Hrow Hr Ho.
  - simpl. rewrite Nat.add_0_r. split; assumption.
  - assert (Hrow' : row = (pre ++ [cell]) ++ rest ++ post)
      by (rewrite <- app_assoc; exact Hrow).
    assert (Hlen : length (pre ++ [cell]) = S (length pre))
      by (rewrite length_app; simpl; lia).
    assert (Hnth : nth_error row (length pre) = Some cell)
      by (rewrite Hrow, nth_error_app2, Nat.sub_diag by lia; reflexivity).
    assert (Hcur : populated cell = false -> blank_at row (Z.of_nat (length pre))).
    { intros Hp. split; [lia|]. exists cell. rewrite Nat2Z.id. split; assumption. }
    simpl.
    replace (length pre + S (length rest))%nat
      with (length (pre ++ [cell]) + length rest)%nat by lia.
    rewrite <- Hlen.
    destruct (populated cell) eqn:Hp; destruct start_idx as [s|];
      apply (IH _ post); try assumption; try exact I.
    + apply Forall_app. split; [assumption|].
      constructor; [|constructor].
      intros k Hk. simpl in Hk. destruct Ho as [_ Ho]. apply Ho. lia.
    + destruct Ho as [Hs Ho]. rewrite Hlen. split; [lia|].
      intros k Hk.
      destruct (Z.eq_dec k (Z.of_nat (length pre))) as [->|Hne].
      * apply Hcur; reflexivity.
      * apply Ho. lia.
    + rewrite Hlen. split; [lia|]. intros k Hk.
      assert (k = Z.of_nat (length pre)) as -> by lia.
      apply Hcur; reflexivity.
Qed.

(** Every range of the scan covers blank cells of the row only. *)
Lemma find_subgroups_blank : Forall (range_blank row) (find_subgroups row).
Proof.
  unfold find_subgroups.
  destruct (scan_subgroups_blank row [] [] [] None
              (eq_sym (app_nil_r row)) (Forall_nil _) I) as [Hr Ho].
  simpl in Hr, Ho.
  destruct (scan_subgroups row 0 [] None) as [ranges [s|]]; simpl in *;
    [|assumption].
  apply Forall_app. split; [assumption|].
  constructor; [|constructor].
  intros k Hk. simpl in Hk. destruct Ho as [_ Ho]. apply Ho. lia.
Qed.

Lemma populated_not_in_subgroup (i : nat) (cell : pystr) :
  nth_error row i = Some cell -> populated cell = true ->
  in_subgroup (Z.of_nat i) (find_subgroups row) = false.
Proof.
  intros Hnth Hp. unfold in_subgroup.
  destruct (existsb _ _) eqn:E; [|reflexivity].
  apply existsb_exists in E. destruct E as (r & Hin & Hr).
  pose proof find_subgroups_blank as Hb.
  rewrite Forall_forall in Hb. specialize (Hb r Hin (Z.of_nat i)).
  unfold in_range in Hr. apply andb_true_iff in Hr.
  rewrite !Z.leb_le in Hr.
  destruct (Hb Hr) as (_ & c & Hc & Hblank).
  rewrite Nat2Z.id in Hc. congruence.
Qed.

(** The body of the second loop, on the ranges of the row itself. *)
Lemma format_cell_plain (prev_row : option (list pystr)) (i : nat) (cell : pystr) :
  nth_error row i = Some cell ->
  format_cell (find_subgroups row) prev_row i cell
  = [if populated cell then cell else lit ""].
Proof.
  intros Hnth. unfold format_cell.
  destruct (populated cell) eqn:Hp; [|reflexivity].
  rewrite (populated_not_in_subgroup i cell Hnth Hp). reflexivity.
Qed.

Lemma format_cells_plain (prev_row : option (list pystr)) (cells : list pystr) :
  forall (pre processed : list pystr),
    row = pre ++ cells ->
    format_cells (find_subgroups row) prev_row (length pre) cells processed
    = processed ++ map (fun cell => if populated cell then cell else lit "") cells.
Proof.
  induction cells as [|cell rest IH]; intros pre processed Hrow; simpl.
  - rewrite app_nil_r. reflexivity.
  - assert (Hnth : nth_error row (length pre) = Some cell)
      by (rewrite Hrow, nth_error_app2, Nat.sub_diag by lia; reflexivity).
    rewrite (format_cell_plain prev_row _ _ Hnth).
    replace (S (length pre)) with (length (pre ++ [cell]))
      by (rewrite length_app; simpl; lia).
    rewrite IH by (rewrite <- app_assoc; exact Hrow).
    rewrite <- app_assoc. reflexivity.
Qed.

End Formatter.

(** The formatter blanks the blank cells and copies the others. *)
Lemma process_header_row_plain (row : list pystr) (prev_row : option (list pystr)) :
  process_header_row row prev_row
  = map (fun cell => if populated cell then cell else lit "") row.
Proof.
  unfold process_header_row.
  exact (format_cells_plain row prev_row row [] [] eq_refl).
Qed.

Lemma process_header_row_length (row : list pystr) (prev_row : option (list pystr)) :
  length (process_header_row row prev_row) = length row.
Proof. rewrite process_header_row_plain. apply length_map. Qed.

(** The scan only ever appends to the ranges. *)
Lemma scan_subgroups_incl (cells : list pystr) :
  forall i ranges start_idx,
    incl ranges (fst (scan_subgroups cells i ranges start_idx)).
Proof.
  induction cells as [|cell rest IH]; intros i ranges start_idx; simpl.
  - apply incl_refl.
  - destruct (populated cell); destruct start_idx as [s|]; try apply IH.
    eapply incl_tran; [|apply IH]. apply incl_appl, incl_refl.
Qed.

Lemma scan_subgroups_app (a b : list pystr) :
  forall i ranges start_idx,
    scan_subgroups (a ++ b) i ranges start_idx
    = scan_subgroups b (i + length a)
        (fst (scan_subgroups a i ranges start_idx))
        (snd (scan_subgroups a i ranges start_idx)).
Proof.
  induction a as [|cell rest IH]; intros i ranges start_idx; simpl.
  - rewrite Nat.add_0_r. reflexivity.
  - replace (i + S (length rest))%nat with (S i + length rest)%nat by lia.
    destruct (populated cell); destruct start_idx as [s|]; apply IH.
Qed.

Lemma find_subgroups_incl (row : list pystr) :
  incl (fst (scan_subgroups row 0 [] None)) (find_subgroups row).
Proof.
  unfold find_subgroups.
  destruct (scan_subgroups row 0 [] None) as [ranges [s|]]; simpl.
  - apply incl_appl, incl_refl.
  - apply incl_refl.
Qed.

(** A blank cell followed by a populated one closes a range at the blank
    cell's index. *)
Lemma blank_run_closed (row : list pystr) (i : nat) (blank cell : pystr) :
  nth_error row i = Some blank -> populated blank = false ->
  nth_error row (S i) = Some cell -> populated cell = true ->
  exists s, In (s, Z.of_nat i) (find_subgroups row) /\ 0 <= s <= Z.of_nat i.
Proof.
  intros Hb Hbp Hc Hcp.
  destruct (nth_error_split row i Hb) as (pre & post & Hrow & Hlen).
  assert (Hpost : exists rest, post = cell :: rest).
  { rewrite Hrow in Hc.
    rewrite nth_error_app2 in Hc by lia.
    replace (S i - length pre)%nat with 1%nat in Hc by lia.
    simpl in Hc. destruct post as [|c rest]; [discriminate|].
    injection Hc as ->. exists rest; reflexivity. }
  destruct Hpost as (rest & ->).
  destruct (scan_subgroups_blank row pre [] (blank :: cell :: rest) [] None
              Hrow (Forall_nil _) I) as [_ Hopen].
  simpl in Hopen. rewrite Hlen in Hopen.
  pose proof (find_subgroups_incl row) as Hincl.
  rewrite Hrow in Hincl at 1.
  rewrite scan_subgroups_app in Hincl. cbn [scan_subgroups Nat.add] in Hincl.
  rewrite Hlen, Hbp in Hincl.
  destruct (snd (scan_subgroups pre 0 [] None)) as [s|].
  - cbn [scan_subgroups] in Hincl. rewrite Hcp in Hincl.
    exists s. split; [|destruct Hopen as [H0 _]; lia].
    apply Hincl, scan_subgroups_incl, in_or_app. right. left.
    f_equal. lia.
  - cbn [scan_subgroups] in Hincl. rewrite Hcp in Hincl.
    exists (Z.of_nat i). split; [|lia].
    apply Hincl, scan_subgroups_incl, in_or_app. right. left.
    f_equal. lia.
Qed.


(** C4. For every row and every previous row, present or absent, the
    ranges of the scan hold indices of blank cells only, so a populated
    cell is in no range and its iteration appends the cell alone: no
    partial-separator directive is ever emitted, and the result has
    [len(row)] elements, each the populated cell unchanged or the empty
    string. *)
Theorem process_header_row_never_emits_cmidrule :
  forall (row : list pystr) (prev_row : option (list pystr)),
    Forall (range_blank row) (find_subgroups row)
    /\ (forall i cell,
           nth_error row i = Some cell -> populated cell = true ->
           in_subgroup (Z.of_nat i) (find_subgroups row) = false
           /\ format_cell (find_subgroups row) prev_row i cell = [cell])
    /\ process_header_row row prev_row
       = map (fun cell => if populated cell then cell else lit "") row
    /\ length (process_header_row row prev_row) = length row.
Proof.
  intros row prev_row. split; [apply find_subgroups_blank|].
  split; [|split].
  - intros i cell Hnth Hp. split.
    + exact (populated_not_in_subgroup row i cell Hnth Hp).
    + rewrite (format_cell_plain row prev_row i cell Hnth), Hp. reflexivity.
  - apply process_header_row_plain.
  - apply process_header_row_length.
Qed.

Lemma process_header_row_never_emits_cmidrule_witness :
  let row := [lit "A"; lit ""; lit ""; lit "B"] in
  in_subgroup 3 (find_subgroups row) = false
  /\ process_header_row row None = row.
Proof.
  intro row.
  destruct (process_header_row_never_emits_cmidrule row None)
    as (_ & Hcell & Hrow & _).
  split.
  - exact (proj1 (Hcell 3%nat (lit "B") eq_refl eq_refl)).
  - rewrite Hrow. reflexivity.
Defined.

(** The first populated cell after a run of blank cells: the scan does
    close the run as a range ending at the column before the cell, but
    the cell's own index is in no range, so whatever the previous row
    holds the cell is appended alone and comes out at its own index. *)
Lemma populated_after_blank_run_gets_no_cmidrule :
  forall (row : list pystr) (prev_row : option (list pystr))
         (i : nat) (blank cell : pystr),
    nth_error row i = Some blank -> populated blank = false ->
    nth_error row (S i) = Some cell -> populated cell = true ->
    prev_has_content prev_row (S i) = false ->
    (exists s, In (s, Z.of_nat i) (find_subgroups row) /\ 0 <= s <= Z.of_nat i)
    /\ in_subgroup (Z.of_nat (S i)) (find_subgroups row) = false
    /\ format_cell (find_subgroups row) prev_row (S i) cell = [cell]
    /\ nth_error (process_header_row row prev_row) (S i) = Some cell.
Proof.
  intros row prev_row i blank cell Hb Hbp Hc Hcp _.
  split; [exact (blank_run_closed row i blank cell Hb Hbp Hc Hcp)|].
  split; [exact (populated_not_in_subgroup row (S i) cell Hc Hcp)|].
  split.
  - rewrite (format_cell_plain row prev_row (S i) cell Hc), Hcp. reflexivity.
  - rewrite process_header_row_plain, nth_error_map, Hc. simpl.
    rewrite Hcp. reflexivity.
Qed.





(** C2. On [["A", "", "", "B"]] with no previous row the scan finds the
    one range (1, 2), index 3 is outside it, and the row comes back with
    no directive anywhere: "B" is not preceded by [\cmidrule(lr){2-3}]. *)
Theorem process_header_row_A_blank_blank_B :
  let row := [lit "A"; lit ""; lit ""; lit "B"] in
  find_subgroups row = [(1, 2)]
  /\ in_subgroup 3 (find_subgroups row) = false
  /\ process_header_row row None = [lit "A"; lit ""; lit ""; lit "B"]
  /\ cmidrule (1, 2) = lit "\cmidrule(lr){2-3}" ++ nl
  /\ ~ In (cmidrule (1, 2)) (process_header_row row None).
Proof.
  cbv zeta. repeat split; try reflexivity.
  vm_compute. intros H.
  repeat (destruct H as [H | H]; [discriminate H|]). exact H.
Qed.

(** C3. On [["", "X", "Y"]] under the all-blank row [["", "", ""]] the
    scan finds the range (0, 0), the previous row has no content at index
    1, and still "X" gets no directive: the row comes back as it is. *)
Theorem process_header_row_blank_X_Y :
  let row := [lit ""; lit "X"; lit "Y"] in
  let prev_row := Some [lit ""; lit ""; lit ""] in
  find_subgroups row = [(0, 0)]
  /\ prev_has_content prev_row 1 = false
  /\ in_subgroup 1 (find_subgroups row) = false
  /\ process_header_row row prev_row = [lit ""; lit "X"; lit "Y"]
  /\ cmidrule (0, 0) = lit "\cmidrule(lr){1-1}" ++ nl
  /\ ~ In (cmidrule (0, 0)) (process_header_row row prev_row).
Proof.
  cbv zeta. repeat split; try reflexivity.
  vm_compute. intros H.
  repeat (destruct H as [H | H]; [discriminate H|]). exact H.
Qed.

(** ** Cell escaper *)






(** C7. A lone slash is kept as it is, two slashes are a missing value,
    and any value whose trimmed string form is a single slash comes back
    as ["/"]. *)
Theorem escape_latex_slash :
  escape_latex (VStr (lit "/")) = lit "/"
  /\ escape_latex (VStr (lit "//")) = textemdash
  /\ forall v : value, strip (to_str v) = lit "/" -> escape_latex v = lit "/".
Proof.
  split; [reflexivity|]. split; [reflexivity|].
  intros v Hv. unfold escape_latex. rewrite Hv. reflexivity.
Qed.

Lemma escape_latex_slash_witness :
  escape_latex (VStr (lit " / ")) = lit "/".
Proof.
  apply (proj2 (proj2 escape_latex_slash) (VStr (lit " / "))).
  reflexivity.
Defined.

(** Replacing a one-character pattern works character by character. *)
Lemma replace_char (o : N) (new s : pystr) :
  replace [o] new s = flat_map (fun c => if N.eqb o c then new else [c]) s.
Proof.
  unfold replace.
  induction s as [|c t IH]; simpl; [reflexivity|].
  rewrite andb_true_r. destruct (N.eqb o c); simpl; rewrite IH; reflexivity.
Qed.

Lemma replace_char_app (o : N) (new s t : pystr) :
  replace [o] new (s ++ t) = replace [o] new s ++ replace [o] new t.
Proof. rewrite !replace_char. apply flat_map_app. Qed.

Lemma apply_replacements_app (table : list (pystr * pystr)) :
  one_char_keys table ->
  forall s t,
    apply_replacements table (s ++ t)
    = apply_replacements table s ++ apply_replacements table t.
Proof.
  unfold apply_replacements.
  induction 1 as [|[orig repl] table [o Ho] _ IH]; intros s t; simpl.
  - reflexivity.
  - simpl in Ho. subst orig. rewrite replace_char_app. apply IH.
Qed.

Lemma replacements_one_char : one_char_keys replacements.
Proof. unfold one_char_keys, replacements. repeat constructor; eexists; reflexivity. Qed.

(** The substitution sequence acts on each character on its own. *)
Lemma apply_replacements_chars (s : pystr) :
  apply_replacements replacements s = flat_map escaped_char s.
Proof.
  induction s as [|c t IH]; [reflexivity|].
  change (c :: t) with ([c] ++ t).
  rewrite (apply_replacements_app _ replacements_one_char), IH. reflexivity.
Qed.

(** C5. The text inserted for a backslash does not survive: the later
    replacements of the braces rewrite its [{}].  The sequence acts on
    each character on its own, so this happens on every string that holds
    a backslash and is escaped at all.  The ampersand comes out escaped
    once. *)
Theorem escape_latex_backslash_form_rewritten :
  apply_replacements (firstn 1 replacements) (lit "a\b") = lit "a\textbackslash{}b"
  /\ escape_latex (VStr (lit "a\b")) = lit "a\textbackslash\{\}b"
  /\ (forall s, apply_replacements replacements s = flat_map escaped_char s)
  /\ escaped_char 92 = lit "\textbackslash\{\}"
  /\ escape_latex (VStr (lit "&")) = lit "\&".
Proof.
  split; [reflexivity|]. split; [reflexivity|].
  split; [exact apply_replacements_chars|]. split; reflexivity.
Qed.

(** ** Table assembler: the loops over the rows *)

Lemma process_header_row_blank_or_copy (row : list pystr) (prev_row : option (list pystr)) :
  process_header_row row prev_row = blank_or_copy row.
Proof. apply process_header_row_plain. Qed.

(** The previous row has no say in the result. *)
Lemma process_header_row_any_prev (row : list pystr) (p q : option (list pystr)) :
  process_header_row row p = process_header_row row q.
Proof. rewrite !process_header_row_blank_or_copy. reflexivity. Qed.

Lemma py_index_nth {A} (l : list A) (j : nat) (x : A) :
  nth_error l j = Some x -> py_index l (Z.of_nat j) = Ret x.
Proof.
  intros H. unfold py_index.
  destruct (Z.ltb_spec (Z.of_nat j) 0) as [Hneg|_]; [lia|].
  destruct (Z.ltb_spec (Z.of_nat j) 0) as [Hneg|_]; [lia|].
  rewrite Nat2Z.id, H. reflexivity.
Qed.

Lemma skipn_cons_nth {A} (l : list A) :
  forall (j : nat) (x : A),
    nth_error l j = Some x -> skipn j l = x :: skipn (S j) l.
Proof.
  induction l as [|y l IH]; intros [|j] x H; simpl in *; try discriminate.
  - injection H as ->. reflexivity.
  - rewrite (IH j x H). reflexivity.
Qed.

Lemma nth_error_in_range {A} (l : list A) (j : nat) :
  (j < length l)%nat -> exists x, nth_error l j = Some x.
Proof.
  intros H. destruct (nth_error l j) as [x|] eqn:E; [exists x; reflexivity|].
  apply nth_error_None in E. lia.
Qed.

Section Loops.

Variable data : table.

Lemma header_loop_from (a : Z) (n : nat) :
  0 <= a ->
  forall (s : nat) (acc : table),
    (Z.to_nat a + s + n <= length data)%nat ->
    header_loop data (map (fun k => a + Z.of_nat k) (seq s n)) acc
    = Ret (acc ++ map (fun r => process_header_row (escape_row r) None)
                      (firstn n (skipn (Z.to_nat a + s) data))).
Proof.
  intros Ha. induction n as [|n IH]; intros s acc Hle.
  - simpl. rewrite app_nil_r. reflexivity.
  - destruct (nth_error_in_range data (Z.to_nat a + s)) as [x Hx]; [lia|].
    cbn [seq map header_loop].
    replace (a + Z.of_nat s) with (Z.of_nat (Z.to_nat a + s)) by lia.
    rewrite (py_index_nth _ _ _ Hx).
    rewrite IH by lia.
    rewrite (skipn_cons_nth _ _ _ Hx). cbn [firstn map].
    replace (Z.to_nat a + S s)%nat with (S (Z.to_nat a + s)) by lia.
    rewrite <- app_assoc. cbn [app].
    rewrite (process_header_row_any_prev _ (last_or_none acc) None).
    reflexivity.
Qed.

Lemma data_loop_from (a : Z) (n : nat) :
  0 <= a ->
  forall (s : nat) (acc : table),
    (Z.to_nat a + s + n <= length data)%nat ->
    data_loop data (map (fun k => a + Z.of_nat k) (seq s n)) acc
    = Ret (acc ++ map escape_row (firstn n (skipn (Z.to_nat a + s) data))).
Proof.
  intros Ha. induction n as [|n IH]; intros s acc Hle.
  - simpl. rewrite app_nil_r. reflexivity.
  - destruct (nth_error_in_range data (Z.to_nat a + s)) as [x Hx]; [lia|].
    cbn [seq map data_loop].
    replace (a + Z.of_nat s) with (Z.of_nat (Z.to_nat a + s)) by lia.
    rewrite (py_index_nth _ _ _ Hx).
    rewrite IH by lia.
    rewrite (skipn_cons_nth _ _ _ Hx). cbn [firstn map].
    replace (Z.to_nat a + S s)%nat with (S (Z.to_nat a + s)) by lia.
    rewrite <- app_assoc. reflexivity.
Qed.

(** The header loop returns, with one formatted row per header line. *)
Lemma header_loop_rows (header_lines : Z) :
  0 <= header_lines <= Z.of_nat (length data) ->
  header_loop data (range 0 header_lines) []
  = Ret (map (fun r => process_header_row (escape_row r) None)
             (firstn (Z.to_nat header_lines) data)).
Proof.
  intros H. unfold range.
  rewrite (header_loop_from 0 _ (Z.le_refl 0) 0 []) by (simpl; lia).
  simpl. rewrite Z.sub_0_r. reflexivity.
Qed.

(** The data loop returns, with the escaped rows after the header. *)
Lemma data_loop_rows (header_lines : Z) :
  0 <= header_lines <= Z.of_nat (length data) ->
  data_loop data (range header_lines (Z.of_nat (length data))) []
  = Ret (map escape_row (skipn (Z.to_nat header_lines) data)).
Proof.
  intros H. unfold range.
  rewrite (data_loop_from header_lines _ (proj1 H) 0 []) by lia.
  rewrite Nat.add_0_r. simpl. f_equal. f_equal.
  apply firstn_all2. rewrite length_skipn. lia.
Qed.

End Loops.

(** C8. For every table and every header index [i] from 1 on, the i-th
    row the header loop produces, which the code formats under the
    previous *formatted* row, is the escaped i-th row formatted under the
    previous row's *escaped* form. *)
Theorem header_rows_use_escaped_prev :
  forall (data : table) (header_lines : Z) (i : nat),
    0 <= header_lines <= Z.of_nat (length data) ->
    (1 <= i)%nat -> Z.of_nat i < header_lines ->
    exists header_rows,
      header_loop data (range 0 header_lines) [] = Ret header_rows
      /\ length header_rows = Z.to_nat header_lines
      /\ nth_error header_rows i = Some (spec_header_row data i)
      /\ nth_error header_rows i
         = Some (process_header_row (escape_row (nth i data []))
                   (nth_error header_rows (i - 1))).
Proof.
  intros data header_lines i Hh Hi Hlt.
  eexists. split; [apply header_loop_rows; exact Hh|].
  assert (Hlen : (i < length data)%nat) by lia.
  destruct (nth_error_in_range data i Hlen) as [r Hr].
  assert (Hnth : nth i data [] = r) by (apply nth_error_nth; exact Hr).
  split; [|split].
  - rewrite length_map, length_firstn. lia.
  - rewrite nth_error_map, nth_error_firstn.
    destruct (Nat.ltb_spec i (Z.to_nat header_lines)) as [_|Hge]; [|lia].
    rewrite Hr. simpl. unfold spec_header_row. rewrite Hnth.
    f_equal. apply process_header_row_any_prev.
  - rewrite nth_error_map, nth_error_firstn.
    destruct (Nat.ltb_spec i (Z.to_nat header_lines)) as [_|Hge]; [|lia].
    rewrite Hr. simpl. rewrite Hnth.
    f_equal. apply process_header_row_any_prev.
Qed.

Lemma header_rows_use_escaped_prev_witness :
  let data := [[lit "Group"; lit ""; lit "Other"]; [lit ""; lit "x"; lit "y"]] in
  exists header_rows,
    header_loop data (range 0 2) [] = Ret header_rows
    /\ length header_rows = 2%nat
    /\ nth_error header_rows 1 = Some (spec_header_row data 1)
    /\ nth_error header_rows 1
       = Some (process_header_row (escape_row (nth 1 data []))
                 (nth_error header_rows (1 - 1))).
Proof.
  intro data.
  apply (header_rows_use_escaped_prev data 2 1%nat); simpl; lia.
Defined.

(** ** The monad *)

Lemma bind_assoc {A B C} (m : M A) (f : A -> M B) (g : B -> M C) (st : state) :
  bind (bind m f) g st = bind m (fun x => bind (f x) g) st.
Proof. unfold bind. destruct (m st) as [[a|e] st1]; reflexivity. Qed.

Lemma bind_ret_step {A B} (m : M A) (k : A -> M B) (st st1 : state) (a : A) :
  m st = (Ret a, st1) -> bind m k st = k a st1.
Proof. intros H. unfold bind. rewrite H. reflexivity. Qed.

Lemma bind_raise_step {A B} (m : M A) (k : A -> M B) (st st1 : state) (e : exn) :
  m st = (Raise e, st1) -> bind m k st = (Raise e, st1).
Proof. intros H. unfold bind. rewrite H. reflexivity. Qed.

(** ** Table assembler: writing the document *)

Section Writing.

Variable w : world.

Lemma write_all_app (a b : list pystr) (st : state) :
  write_all w (a ++ b) st = (write_all w a ;;; write_all w b) st.
Proof.
  revert st. unfold write_all.
  induction a as [|c a IH]; intros st; cbn [for_each app]; [reflexivity|].
  rewrite bind_assoc.
  destruct (write w c st) as [[[]|e] st1] eqn:E.
  - rewrite !(bind_ret_step _ _ _ _ _ E). apply IH.
  - rewrite !(bind_raise_step _ _ _ _ _ E). reflexivity.
Qed.

Lemma writes_bind (m k : M unit) (l l' : list pystr) :
  writes w m l -> writes w k l' -> writes w (m ;;; k) (l ++ l').
Proof.
  intros Hm Hk st. rewrite write_all_app. unfold bind. rewrite Hm.
  destruct (write_all w l st) as [[[]|e] st1]; [apply Hk | reflexivity].
Qed.

Lemma writes_ret : writes w (ret tt) [].
Proof. intros st. reflexivity. Qed.

Lemma writes_write (c : pystr) : writes w (write w c) [c].
Proof.
  intros st. unfold write_all, for_each, bind, ret, write.
  destruct (write_fail w (nwrites st)); reflexivity.
Qed.

Lemma writes_if (b : bool) (c : pystr) :
  writes w (if b then write w c else ret tt) (if b then [c] else []).
Proof. destruct b; [apply writes_write | apply writes_ret]. Qed.

Lemma writes_rows (rows : table) :
  writes w (for_each rows (fun row => write w (render_row row)))
    (map render_row rows).
Proof.
  induction rows as [|row rows IH]; [apply writes_ret|].
  exact (writes_bind _ _ [_] _ (writes_write _) IH).
Qed.

Lemma writes_header_rows (n : nat) (rows : table) :
  forall i : nat,
    (i + length rows = n)%nat ->
    writes w
      (for_enumerate i rows (fun i row =>
         write w (render_row row) ;;;
         if Z.of_nat i =? Z.of_nat n - 1
         then write w (lit "\bottomrule" ++ nl)
         else ret tt))
      (header_block rows).
Proof.
  unfold header_block.
  induction rows as [|row rows IH]; intros i Hi; [apply writes_ret|].
  cbn [for_enumerate]. simpl in Hi.
  destruct rows as [|row' rows].
  - change (map render_row [row] ++ (if nonempty [row] then [lit "\bottomrule" ++ nl] else []))
      with (([render_row row] ++ [lit "\bottomrule" ++ nl]) ++ []).
    replace (Z.of_nat i =? Z.of_nat n - 1) with true
      by (symmetry; apply Z.eqb_eq; simpl in Hi; lia).
    apply writes_bind; [|apply writes_ret].
    apply writes_bind; apply writes_write.
  - change (map render_row (row :: row' :: rows)
            ++ (if nonempty (row :: row' :: rows) then [lit "\bottomrule" ++ nl] else []))
      with (([render_row row] ++ [])
            ++ (map render_row (row' :: rows)
                ++ (if nonempty (row' :: rows) then [lit "\bottomrule" ++ nl] else []))).
    replace (Z.of_nat i =? Z.of_nat n - 1) with false
      by (symmetry; apply Z.eqb_neq; simpl in Hi; lia).
    apply writes_bind; [|apply IH; simpl in *; lia].
    apply writes_bind; [apply writes_write | apply writes_ret].
Qed.

Lemma writes_header_block (header_rows : table) :
  writes w (write_header_block w header_rows) (header_block header_rows).
Proof. apply (writes_header_rows (length header_rows)). reflexivity. Qed.

(** The body of the [with] writes the document, string by string. *)
Lemma write_document_writes
      (caption label : pystr) (landscape : bool) (ncols : nat)
      (widths : list pystr) (header_rows rows : table) :
  writes w (write_document w caption label landscape ncols widths header_rows rows)
    (document caption label landscape ncols widths header_rows rows).
Proof.
  unfold write_document, document.
  repeat (apply writes_bind;
          [first [apply writes_write | apply writes_if
                 | apply writes_header_block | apply writes_rows]|]).
  apply writes_if.
Qed.

(** The writes all succeed, or one of them raises. *)
Lemma write_all_cases (chunks : list pystr) :
  forall st : state,
    ((forall k, (k < length chunks)%nat -> write_fail w (nwrites st + k) = None)
     /\ write_all w chunks st
        = (Ret tt, {| stdout := stdout st; written := written st ++ chunks;
                      nwrites := nwrites st + length chunks |}))
    \/ ((exists k, (k < length chunks)%nat /\ write_fail w (nwrites st + k) <> None)
        /\ exists e st', write_all w chunks st = (Raise e, st')
                         /\ stdout st' = stdout st).
Proof.
  unfold write_all.
  induction chunks as [|c chunks IH]; intros st.
  - left. split; [intros k Hk; simpl in Hk; lia|].
    simpl. unfold ret. rewrite app_nil_r, Nat.add_0_r. destruct st; reflexivity.
  - cbn [for_each].
    destruct (write_fail w (nwrites st)) as [e|] eqn:E.
    + assert (Hw : write w c st
                   = (Raise e, {| stdout := stdout st; written := written st;
                                  nwrites := S (nwrites st) |}))
        by (unfold write; rewrite E; reflexivity).
      right. split.
      * exists 0%nat. rewrite Nat.add_0_r, E. split; [simpl; lia | discriminate].
      * rewrite (bind_raise_step _ _ _ _ _ Hw).
        eexists; eexists. split; reflexivity.
    + assert (Hw : write w c st
                   = (Ret tt, {| stdout := stdout st; written := written st ++ [c];
                                 nwrites := S (nwrites st) |}))
        by (unfold write; rewrite E; reflexivity).
      rewrite (bind_ret_step _ _ _ _ _ Hw).
      destruct (IH {| stdout := stdout st; written := written st ++ [c];
                      nwrites := S (nwrites st) |}) as [[Hall Hrun]|[Hex Hrun]];
        cbn [stdout written nwrites] in *.
      * left. split.
        -- intros [|k] Hk; [rewrite Nat.add_0_r; exact E|].
           replace (nwrites st + S k)%nat with (S (nwrites st + k)) by lia.
           apply Hall. simpl in Hk. lia.
        -- rewrite Hrun. rewrite <- app_assoc. cbn [app length].
           replace (nwrites st + S (length chunks))%nat
             with (S (nwrites st + length chunks)) by lia.
           reflexivity.
      * right. split.
        -- destruct Hex as (k & Hk & Hf). exists (S k). split; [simpl; lia|].
           replace (nwrites st + S k)%nat with (S (nwrites st + k)) by lia.
           exact Hf.
        -- exact Hrun.
Qed.

End Writing.

(** ** Table assembler: reading and normalizing *)

Lemma read_loop_loaded (w : world) (input_csv : pystr) (encs : list pystr) :
  forall st : state,
    exists out,
      read_loop w input_csv encs [] st
      = (Ret (loaded w input_csv encs),
         {| stdout := stdout st ++ out; written := written st;
            nwrites := nwrites st |}).
Proof.
  induction encs as [|enc encs IH]; intros st; cbn [read_loop loaded].
  - exists []. unfold ret. rewrite app_nil_r. destruct st; reflexivity.
  - destruct (read_csv w input_csv enc) as [[|r rows]|e]; cbn [nonempty].
    + apply IH.
    + eexists [_]. reflexivity.
    + destruct (IH {| stdout := stdout st
                        ++ [lit "Failed with " ++ enc ++ lit ": " ++ exn_str e];
                      written := written st; nwrites := nwrites st |})
        as [out Hout].
      cbn [stdout written nwrites] in Hout.
      exists ((lit "Failed with " ++ enc ++ lit ": " ++ exn_str e) :: out).
      rewrite (bind_ret_step (print _) _ _ _ _ eq_refl).
      rewrite <- app_assoc in Hout. exact Hout.
Qed.

Lemma loaded_nil_iff (w : world) (input_csv : pystr) (encs : list pystr) :
  loaded w input_csv encs = [] <-> no_rows w input_csv encs.
Proof.
  unfold no_rows. induction encs as [|enc encs IH]; cbn [loaded].
  - split; [constructor | reflexivity].
  - destruct (read_csv w input_csv enc) as [[|r rows]|e] eqn:E.
    + rewrite IH. split.
      * intros H. constructor; [|exact H]. intros rows' Hr.
        rewrite E in Hr. injection Hr as <-. reflexivity.
      * intros H. inversion H; assumption.
    + split; [discriminate|]. intros H. inversion H as [|? ? Hh _].
      discriminate (Hh _ E).
    + rewrite IH. split.
      * intros H. constructor; [|exact H]. intros rows' Hr.
        rewrite E in Hr. discriminate Hr.
      * intros H. inversion H; assumption.
Qed.

Lemma fold_left_max (l : list nat) :
  forall x : nat, fold_left Nat.max l x = Nat.max x (list_max l).
Proof.
  induction l as [|y l IH]; intros x; simpl; [lia|].
  rewrite IH. lia.
Qed.

(** On a table with a row, [max] returns: the largest row length. *)
Lemma py_max_ncols (data : table) :
  data <> [] -> py_max (map (@length pystr) data) = Ret (ncols_of data).
Proof.
  destruct data as [|r data]; [congruence|]. intros _.
  unfold py_max, ncols_of. cbn [map]. rewrite fold_left_max. reflexivity.
Qed.

Lemma ncols_of_bound (data : table) (row : list pystr) :
  In row data -> (length row <= ncols_of data)%nat.
Proof.
  intros Hin. unfold ncols_of.
  pose proof (proj1 (list_max_le (map (@length pystr) data) _) (Nat.le_refl _)) as H.
  rewrite Forall_forall in H. apply H. apply in_map. exact Hin.
Qed.

Lemma pad_rows_length (ncols : nat) (data : table) :
  length (pad_rows ncols data) = length data.
Proof. apply length_map. Qed.

(** After the padding every row is [ncols] long. *)
Lemma pad_rows_width (data : table) :
  Forall (fun row => length row = ncols_of data) (pad_rows (ncols_of data) data).
Proof.
  unfold pad_rows. apply Forall_map, Forall_forall. intros row Hin.
  pose proof (ncols_of_bound data row Hin) as Hle.
  destruct (Nat.ltb_spec (length row) (ncols_of data)) as [Hlt|Hge].
  - rewrite length_app, repeat_length. lia.
  - lia.
Qed.

(** ** Table assembler: the whole conversion *)

Lemma last_snoc {A} (l : list A) (x d : A) : last (l ++ [x]) d = x.
Proof. apply last_last. Qed.

(** The [try] of lines 169-237 returns, and tells whether the output
    could be written in full. *)
Lemma try_write_cases (w : world) (output_tex : pystr) (body : M unit)
      (chunks : list pystr) (st : state) :
  writes w body chunks ->
  let r := try_except (with_open_w w output_tex body ;;; ret true)
             (fun e => print (lit "Error writing LaTeX: " ++ exn_str e) ;;; ret false)
             st in
  (~ output_error w output_tex (nwrites st) (length chunks)
   /\ r = (Ret true, {| stdout := stdout st; written := chunks;
                        nwrites := nwrites st + length chunks |}))
  \/ (output_error w output_tex (nwrites st) (length chunks)
      /\ exists e st', r = (Ret false, st')
                       /\ stdout st' = stdout st
                                       ++ [lit "Error writing LaTeX: " ++ exn_str e]).
Proof.
  intros Hbody r.
  assert (Hcomp : forall x, r = x <->
            try_except (with_open_w w output_tex body ;;; ret true)
              (fun e => print (lit "Error writing LaTeX: " ++ exn_str e) ;;; ret false)
              st = x) by (intros x; subst r; reflexivity).
  clearbody r. unfold output_error.
  destruct (open_w w output_tex) as [e|] eqn:Eo.
  { right. split; [left; discriminate|].
    exists e. eexists. split;
      [apply Hcomp; unfold try_except, bind, with_open_w; rewrite Eo; reflexivity
      |reflexivity]. }
  destruct (write_all_cases w chunks
              {| stdout := stdout st; written := []; nwrites := nwrites st |})
    as [[Hall Hrun]|[Hex (e & st1 & Hrun & Hout)]];
    cbn [stdout written nwrites] in *.
  - destruct (close_fail w) as [e|] eqn:Ec.
    + right. split; [right; right; discriminate|].
      exists e. eexists. split;
        [apply Hcomp; unfold try_except, bind, with_open_w;
         rewrite Eo, Hbody, Hrun, Ec; reflexivity
        |reflexivity].
    + left. split.
      * intros [H|[(k & Hk & Hf)|H]]; try congruence.
        apply Hf, Hall, Hk.
      * apply Hcomp. unfold try_except, bind, with_open_w.
        rewrite Eo, Hbody, Hrun, Ec. reflexivity.
  - right. split; [right; left; exact Hex|].
    destruct (close_fail w) as [e'|] eqn:Ec.
    + exists e'. eexists. split.
      * apply Hcomp. unfold try_except, bind, with_open_w.
        rewrite Eo, Hbody, Hrun, Ec. reflexivity.
      * unfold print, ret. cbn [stdout]. rewrite Hout. reflexivity.
    + exists e. eexists. split.
      * apply Hcomp. unfold try_except, bind, with_open_w.
        rewrite Eo, Hbody, Hrun, Ec. reflexivity.
      * unfold print, ret. cbn [stdout]. rewrite Hout. reflexivity.
Qed.

Section Conversion.

Variables (w : world) (input_csv output_tex caption label : pystr).
Variables (landscape : bool) (header_lines : Z).

(** The four ways a conversion ends. *)
Lemma csv_to_latex_table_cases (st : state) :
  0 <= header_lines ->
  let data := loaded w input_csv (encodings_to_try (detect_encoding w input_csv)) in
  let run := csv_to_latex_table w input_csv output_tex caption label
               landscape header_lines st in
  let chunks := document_of caption label landscape data header_lines in
  (data = []
   /\ exists st', run = (Ret false, st')
                  /\ last (stdout st') [] = lit "Error: Could not read CSV data")
  \/ (data <> [] /\ Z.of_nat (length data) < header_lines
      /\ exists st', run = (Ret false, st')
                     /\ last (stdout st') []
                        = lit "Error: Not enough rows for "
                          ++ str_of_int header_lines ++ lit " header lines")
  \/ (data <> [] /\ header_lines <= Z.of_nat (length data)
      /\ ~ output_error w output_tex (nwrites st) (length chunks)
      /\ exists st', run = (Ret true, st') /\ written st' = chunks)
  \/ (data <> [] /\ header_lines <= Z.of_nat (length data)
      /\ output_error w output_tex (nwrites st) (length chunks)
      /\ exists e st', run = (Ret false, st')
                       /\ last (stdout st') []
                          = lit "Error writing LaTeX: " ++ exn_str e).
Proof.
  intros Hh data run chunks. subst run chunks.
  assert (Ed : data = loaded w input_csv
                        (encodings_to_try (detect_encoding w input_csv)))
    by reflexivity.
  clearbody data.
  unfold csv_to_latex_table.
  rewrite (bind_ret_step (print _) _ _ _ _ eq_refl).
  match goal with
  | |- context [bind (read_loop _ _ _ _) _ ?s] =>
      destruct (read_loop_loaded w input_csv
                  (encodings_to_try (detect_encoding w input_csv)) s)
        as [out Hout]
  end.
  cbn [stdout written nwrites] in Hout.
  rewrite (bind_ret_step _ _ _ _ _ Hout), <- Ed. clear Hout Ed.
  destruct data as [|r0 rest] eqn:Edata.
  { left. split; [reflexivity|]. cbn [nonempty negb].
    rewrite (bind_ret_step (print _) _ _ _ _ eq_refl).
    eexists. split; [reflexivity|]. cbn [stdout]. apply last_snoc. }
  right. cbn [nonempty negb]. rewrite <- Edata.
  assert (Hne : data <> []) by (rewrite Edata; discriminate).
  clear Edata.
  destruct (Z.ltb_spec (Z.of_nat (length data)) header_lines) as [Hlt|Hge].
  { left. split; [exact Hne|]. split; [exact Hlt|].
    rewrite (bind_ret_step (print _) _ _ _ _ eq_refl).
    eexists. split; [reflexivity|]. cbn [stdout]. apply last_snoc. }
  right.
  rewrite (py_max_ncols data Hne).
  rewrite (bind_ret_step (lift _) _ _ _ _ eq_refl).
  rewrite (bind_ret_step (print _) _ _ _ _ eq_refl).
  cbv zeta.
  assert (Hrange : 0 <= header_lines
                   <= Z.of_nat (length (pad_rows (ncols_of data) data)))
    by (rewrite pad_rows_length; lia).
  rewrite (header_loop_rows _ _ Hrange).
  rewrite (bind_ret_step (lift _) _ _ _ _ eq_refl).
  rewrite (data_loop_rows _ _ Hrange).
  rewrite (bind_ret_step (lift _) _ _ _ _ eq_refl).
  match goal with
  | |- context [try_except _ _ ?s] =>
      destruct (try_write_cases w output_tex _ _ s
                  (write_document_writes w caption label landscape
                     (ncols_of data) (repeat base_width (ncols_of data))
                     (header_rows_of data header_lines)
                     (data_rows_of data header_lines)))
        as [[Hok Hrun]|[Herr (e & st' & Hrun & Hlast)]]
  end; cbn [stdout written nwrites] in *.
  - left. split; [exact Hne|]. split; [exact Hge|]. split; [exact Hok|].
    eexists. split; [exact Hrun | reflexivity].
  - right. split; [exact Hne|]. split; [exact Hge|]. split; [exact Herr|].
    exists e, st'. split; [exact Hrun|]. rewrite Hlast. apply last_snoc.
Qed.

End Conversion.

(** ** Cells and the separator *)

Lemma amp_guarded_free (a b : pystr) :
  amp_free a = true -> (forall q, amp_guarded q b = true) ->
  forall p : N, amp_guarded p (a ++ b) = true.
Proof.
  intros Hfree Hb. induction a as [|c a IH]; intros p; [apply Hb|].
  simpl in Hfree. apply andb_true_iff in Hfree. destruct Hfree as [Hc Ha].
  cbn [app amp_guarded]. rewrite Hc, (IH Ha). reflexivity.
Qed.

Lemma amp_guarded_escaped_amp (b : pystr) :
  (forall q, amp_guarded q b = true) ->
  forall p : N, amp_guarded p ([92; 38]%N ++ b) = true.
Proof. intros Hb p. cbn [app amp_guarded]. rewrite Hb. reflexivity. Qed.

Lemma replace_char_other (o c : N) (new : pystr) :
  o <> c -> replace [o] new [c] = [c].
Proof.
  intros H. rewrite replace_char. cbn [flat_map].
  apply N.eqb_neq in H. rewrite H. reflexivity.
Qed.

Ltac in_list := cbv [In special_chars]; repeat first [left; reflexivity | right].

Ltac eval_literals :=
  repeat match goal with
         | |- context [lit ?s] =>
             let v := eval vm_compute in (lit s) in change (lit s) with v
         end.

(** A character that is no pattern of the table is left alone. *)
Lemma escaped_char_other (c : N) :
  ~ In c special_chars -> escaped_char c = [c].
Proof.
  intros H. unfold escaped_char, apply_replacements, replacements.
  cbn [fold_left]. eval_literals.
  repeat (rewrite replace_char_other
            by (intros E; apply H; rewrite <- E; in_list)).
  reflexivity.
Qed.

(** What the table makes of a character holds an ampersand only as the
    escaped ampersand. *)
Lemma escaped_char_amp (c : N) :
  escaped_char c = [92; 38]%N \/ amp_free (escaped_char c) = true.
Proof.
  destruct (in_dec N.eq_dec c special_chars) as [Hin|Hout].
  - unfold special_chars in Hin.
    repeat (destruct Hin as [<-|Hin];
            [first [left; reflexivity | right; reflexivity]|]).
    destruct Hin.
  - right. rewrite (escaped_char_other c Hout). cbn [amp_free forallb].
    rewrite andb_true_r. apply negb_true_iff, N.eqb_neq.
    intros ->. apply Hout. in_list.
Qed.

Lemma apply_replacements_guarded (s : pystr) :
  forall p : N, amp_guarded p (apply_replacements replacements s) = true.
Proof.
  rewrite apply_replacements_chars.
  induction s as [|c t IH]; intros p; [reflexivity|].
  cbn [flat_map]. destruct (escaped_char_amp c) as [-> | Hfree].
  - apply amp_guarded_escaped_amp, IH.
  - apply amp_guarded_free; assumption.
Qed.

(** In an escaped cell every ampersand is escaped. *)
Lemma escape_latex_guarded (v : value) (p : N) :
  amp_guarded p (escape_latex v) = true.
Proof.
  unfold escape_latex.
  destruct (str_in _ _); [reflexivity|].
  destruct (str_eqb _ _); [reflexivity|].
  apply apply_replacements_guarded.
Qed.

Lemma amp_guarded_no_leading (s : pystr) :
  amp_guarded 0 s = true -> no_leading_amp s.
Proof.
  destruct s as [|c t]; [exact (fun _ => I)|].
  cbn [amp_guarded no_leading_amp]. intros H ->. discriminate H.
Qed.

(** Inside a cell with its ampersands escaped, and up to a text that
    does not start with an ampersand, no separator begins. *)
Lemma count_sep_cell (x r : pystr) :
  no_leading_amp r ->
  forall p : N,
    amp_guarded p x = true -> (p = 32%N -> no_leading_amp x) ->
    count_sep (x ++ r) = count_sep r.
Proof.
  intros Hr. induction x as [|c x IH]; intros p Hg Hp; [reflexivity|].
  cbn [amp_guarded] in Hg. apply andb_true_iff in Hg. destruct Hg as [Hc Hx].
  cbn [app count_sep].
  assert (Hnext : c = 32%N -> no_leading_amp (x ++ r)).
  { intros ->. destruct x as [|d x]; [exact Hr|].
    cbn [app no_leading_amp]. cbn [amp_guarded] in Hx.
    intros ->. discriminate Hx. }
  assert (Hpre : is_prefix row_sep (c :: x ++ r) = false).
  { change row_sep with [32; 38; 32]%N. cbn [is_prefix].
    destruct (N.eqb_spec 32 c) as [<-|]; [|reflexivity].
    specialize (Hnext eq_refl).
    destruct (x ++ r) as [|d u]; [reflexivity|].
    cbn [no_leading_amp] in Hnext.
    destruct (N.eqb_spec 38 d) as [<-|]; [congruence | reflexivity]. }
  rewrite Hpre. cbn [Nat.add].
  apply (IH c Hx). intros ->. destruct x as [|d x]; [exact I|].
  cbn [amp_guarded] in Hx. cbn [no_leading_amp]. intros ->. discriminate Hx.
Qed.

Lemma count_sep_sep (r : pystr) :
  no_leading_amp r -> count_sep (row_sep ++ r) = S (count_sep r).
Proof.
  intros Hr. destruct r as [|d u]; [reflexivity|].
  cbn [no_leading_amp] in Hr.
  assert (E : N.eqb 38 d = false) by (apply N.eqb_neq; congruence).
  change (row_sep ++ d :: u) with (32 :: 38 :: 32 :: d :: u)%N.
  cbn [count_sep]. change row_sep with [32; 38; 32]%N.
  cbn [is_prefix]. rewrite E. reflexivity.
Qed.

Lemma join_no_leading_amp (cells : list pystr) (tail : pystr) :
  Forall cell_guarded cells -> no_leading_amp tail ->
  no_leading_amp (join row_sep cells ++ tail).
Proof.
  intros Hc Ht. destruct Hc as [|x cells Hx Hrest]; [exact Ht|].
  apply amp_guarded_no_leading in Hx.
  destruct cells as [|y cells].
  - cbn [join]. destruct x; [exact Ht | exact Hx].
  - cbn [join]. destruct x; [|exact Hx].
    cbn. discriminate.
Qed.

(** A row of guarded cells holds one separator less than it has cells. *)
Lemma count_sep_join (cells : list pystr) (tail : pystr) :
  Forall cell_guarded cells -> no_leading_amp tail ->
  count_sep (join row_sep cells ++ tail) = (length cells - 1 + count_sep tail)%nat.
Proof.
  intros Hc Ht. induction Hc as [|x cells Hx Hrest IH]; [reflexivity|].
  assert (H0 : 0%N = 32%N -> no_leading_amp x) by (intros E; discriminate E).
  destruct cells as [|y cells].
  - cbn [join length Nat.sub Nat.add].
    exact (count_sep_cell x tail Ht 0 Hx H0).
  - change (join row_sep (x :: y :: cells))
      with (x ++ row_sep ++ join row_sep (y :: cells)).
    rewrite <- !app_assoc.
    assert (Hn : no_leading_amp (join row_sep (y :: cells) ++ tail))
      by (apply join_no_leading_amp; assumption).
    assert (Hs : no_leading_amp (row_sep ++ join row_sep (y :: cells) ++ tail))
      by (cbn; discriminate).
    rewrite (count_sep_cell x _ Hs 0 Hx H0).
    rewrite (count_sep_sep _ Hn), IH. cbn [length]. lia.
Qed.

Lemma in_firstn {A} (n : nat) (l : list A) (x : A) : In x (firstn n l) -> In x l.
Proof.
  intros H. rewrite <- (firstn_skipn n l). apply in_or_app. left. exact H.
Qed.

Lemma in_skipn {A} (n : nat) (l : list A) (x : A) : In x (skipn n l) -> In x l.
Proof.
  intros H. rewrite <- (firstn_skipn n l). apply in_or_app. right. exact H.
Qed.

Lemma list_max_attained (l : list nat) : l <> [] -> In (list_max l) l.
Proof.
  induction l as [|x l IH]; [congruence|]. intros _.
  destruct l as [|y l].
  - left. simpl. lia.
  - assert (Hin : In (list_max (y :: l)) (y :: l)) by (apply IH; discriminate).
    change (list_max (x :: y :: l)) with (Nat.max x (list_max (y :: l))).
    destruct (Nat.max_spec x (list_max (y :: l))) as [[_ ->]|[_ ->]].
    + right. exact Hin.
    + left. reflexivity.
Qed.

Lemma pad_rows_nth (data : table) (i : nat) (row : list pystr) :
  nth_error data i = Some row ->
  nth_error (pad_rows (ncols_of data) data) i
  = Some (row ++ repeat (lit "") (ncols_of data - length row)).
Proof.
  intros H. unfold pad_rows. rewrite nth_error_map, H. cbn [option_map].
  pose proof (ncols_of_bound data row (nth_error_In _ _ H)) as Hle.
  destruct (Nat.ltb_spec (length row) (ncols_of data)) as [Hlt|Hge];
    [reflexivity|].
  replace (ncols_of data - length row)%nat with 0%nat by lia.
  cbn [repeat]. rewrite app_nil_r. reflexivity.
Qed.

Lemma escape_row_guarded (row : list pystr) : Forall cell_guarded (escape_row row).
Proof.
  unfold escape_row. apply Forall_map, Forall_forall. intros cell _.
  apply escape_latex_guarded.
Qed.

Lemma blank_or_copy_guarded (row : list pystr) :
  Forall cell_guarded row -> Forall cell_guarded (blank_or_copy row).
Proof.
  intros H. unfold blank_or_copy. apply Forall_map.
  apply (Forall_impl _ (P := cell_guarded)); [|exact H].
  intros cell Hc. destruct (populated cell); [exact Hc | reflexivity].
Qed.

(** A rendered row of guarded cells has one separator less than cells. *)
Lemma render_row_count (row : list pystr) :
  Forall cell_guarded row -> count_sep (render_row row) = (length row - 1)%nat.
Proof.
  intros H. unfold render_row.
  rewrite (count_sep_join row _ H) by (cbn; discriminate).
  change (count_sep (lit " \\" ++ nl)) with 0%nat. lia.
Qed.

(** C9. On a table with a row, [ncols] is the largest row length, the
    padding fills each shorter row on the right with empty fields, and
    every row is [ncols] long afterwards; the loops return the header
    and data rows, the document written holds one line per row, and each
    such line is its [ncols] cells joined by [" & "], which occurs in it
    [ncols - 1] times. *)
Theorem normalized_rows_render_ncols_cells :
  forall (data : table) (header_lines : Z),
    data <> [] -> 0 <= header_lines <= Z.of_nat (length data) ->
    let ncols := ncols_of data in
    let padded := pad_rows ncols data in
    (py_max (map (@length pystr) data) = Ret ncols
     /\ (forall row, In row data -> (length row <= ncols)%nat)
     /\ (exists row, In row data /\ length row = ncols))
    /\ (length padded = length data
        /\ (forall i row,
               nth_error data i = Some row ->
               nth_error padded i
               = Some (row ++ repeat (lit "") (ncols - length row)))
        /\ Forall (fun row => length row = ncols) padded)
    /\ exists header_rows rows,
        header_loop padded (range 0 header_lines) [] = Ret header_rows
        /\ data_loop padded (range header_lines (Z.of_nat (length padded))) []
           = Ret rows
        /\ (forall w caption label landscape,
               writes w
                 (write_document w caption label landscape ncols
                    (repeat base_width ncols) header_rows rows)
                 (document caption label landscape ncols
                    (repeat base_width ncols) header_rows rows))
        /\ Forall (fun row =>
                     length row = ncols
                     /\ render_row row = join row_sep row ++ lit " \\" ++ nl
                     /\ count_sep (render_row row) = (ncols - 1)%nat)
                  (header_rows ++ rows).
Proof.
  intros data header_lines Hne Hh ncols padded.
  assert (Hwidth : Forall (fun row => length row = ncols) padded)
    by apply pad_rows_width.
  assert (Hrange : 0 <= header_lines <= Z.of_nat (length padded))
    by (unfold padded; rewrite pad_rows_length; exact Hh).
  split; [|split].
  - split; [apply py_max_ncols; exact Hne|].
    split; [intros row; apply ncols_of_bound|].
    assert (Hin : In ncols (map (@length pystr) data)).
    { apply list_max_attained. destruct data; [congruence | discriminate]. }
    apply in_map_iff in Hin. destruct Hin as (row & Hlen & Hin).
    exists row. split; assumption.
  - split; [apply pad_rows_length|].
    split; [intros i row; apply pad_rows_nth | exact Hwidth].
  - eexists. eexists.
    split; [apply header_loop_rows; exact Hrange|].
    split; [apply data_loop_rows; exact Hrange|].
    split; [intros; apply write_document_writes|].
    rewrite Forall_forall in Hwidth.
    apply Forall_app. split; apply Forall_map, Forall_forall; intros row Hin.
    + apply in_firstn in Hin.
      rewrite process_header_row_blank_or_copy.
      assert (Hlen : length (blank_or_copy (escape_row row)) = ncols).
      { unfold blank_or_copy, escape_row. rewrite !length_map.
        apply Hwidth, Hin. }
      split; [exact Hlen|]. split; [reflexivity|].
      rewrite render_row_count, Hlen; [reflexivity|].
      apply blank_or_copy_guarded, escape_row_guarded.
    + apply in_skipn in Hin.
      assert (Hlen : length (escape_row row) = ncols).
      { unfold escape_row. rewrite length_map. apply Hwidth, Hin. }
      split; [exact Hlen|]. split; [reflexivity|].
      rewrite render_row_count, Hlen; [reflexivity|].
      apply escape_row_guarded.
Qed.

Lemma normalized_rows_render_ncols_cells_witness :
  let data := [[lit "a"; lit "b & c"; lit "d"]; [lit "1"]; [lit "x"; lit "y"]] in
  exists header_rows rows,
    header_loop (pad_rows 3 data) (range 0 1) [] = Ret header_rows
    /\ data_loop (pad_rows 3 data) (range 1 3) [] = Ret rows
    /\ Forall (fun row => length row = 3%nat /\ count_sep (render_row row) = 2%nat)
              (header_rows ++ rows).
Proof.
  intro data.
  assert (Hne : data <> []) by discriminate.
  assert (Hh : 0 <= 1 <= Z.of_nat (length data)) by (simpl; lia).
  destruct (normalized_rows_render_ncols_cells data 1 Hne Hh)
    as (_ & _ & header_rows & rows & Hh' & Hd & _ & Hall).
  exists header_rows, rows. split; [exact Hh'|]. split; [exact Hd|].
  apply (Forall_impl _ (P := fun row =>
           length row = ncols_of data
           /\ render_row row = join row_sep row ++ lit " \\" ++ nl
           /\ count_sep (render_row row) = (ncols_of data - 1)%nat));
    [|exact Hall].
  intros row (Hl & _ & Hc). split; [exact Hl | exact Hc].
Defined.

(** * Further properties *)

(** ** The ranges of the scan *)

Lemma in_subgroup_app (k : Z) (a b : list (Z * Z)) :
  in_subgroup k (a ++ b) = in_subgroup k a || in_subgroup k b.
Proof. apply existsb_app. Qed.

Lemma scan_subgroups_covers (row cells : list pystr) :
  forall (pre post : list pystr) (ranges : list (Z * Z)) (start_idx : option Z),
    row = pre ++ cells ++ post ->
    blanks_covered row ranges start_idx (length pre) ->
    blanks_covered row
      (fst (scan_subgroups cells (length pre) ranges start_idx))
      (snd (scan_subgroups cells (length pre) ranges start_idx))
      (length pre + length cells).
Proof.
  induction cells as [|cell rest IH]; intros pre post ranges start_idx Hrow Hc.
  - simpl. rewrite Nat.add_0_r. exact Hc.
  - assert (Hrow' : row = (pre ++ [cell]) ++ rest ++ post)
      by (rewrite <- app_assoc; exact Hrow).
    assert (Hlen : length (pre ++ [cell]) = S (length pre))
      by (rewrite length_app; simpl; lia).
    assert (Hnth : nth_error row (length pre) = Some cell)
      by (rewrite Hrow, nth_error_app2, Nat.sub_diag by lia; reflexivity).
    cbn [scan_subgroups length].
    replace (length pre + S (length rest))%nat
      with (length (pre ++ [cell]) + length rest)%nat by lia.
    rewrite <- Hlen.
    destruct Hc as [Hcov Hs].
    destruct (populated cell) eqn:Hp; destruct start_idx as [s|];
      apply (IH _ post); try assumption; rewrite Hlen; split.
    + intros k Hk Hb. left. rewrite in_subgroup_app.
      assert (Hki : k <> Z.of_nat (length pre)).
      { intros ->. destruct Hb as (_ & c & Hc & Hcb).
        rewrite Nat2Z.id in Hc. congruence. }
      destruct (Hcov k ltac:(lia) Hb) as [Hin|(s' & [= <-] & Hle)].
      * rewrite Hin. reflexivity.
      * apply orb_true_iff. right. cbn [in_subgroup existsb].
        unfold in_range. cbn [fst snd].
        rewrite orb_false_r. apply andb_true_iff. rewrite !Z.leb_le. lia.
    + intros s' [=].
    + intros k Hk Hb. left.
      assert (Hki : k <> Z.of_nat (length pre)).
      { intros ->. destruct Hb as (_ & c & Hc & Hcb).
        rewrite Nat2Z.id in Hc. congruence. }
      destruct (Hcov k ltac:(lia) Hb) as [Hin|(s' & [=] & _)]. exact Hin.
    + intros s' [=].
    + intros k Hk Hb.
      destruct (Z.eq_dec k (Z.of_nat (length pre))) as [->|Hne].
      * right. exists s. split; [reflexivity|]. specialize (Hs s eq_refl). lia.
      * apply Hcov; [lia | exact Hb].
    + intros s' [= <-]. specialize (Hs s eq_refl). lia.
    + intros k Hk Hb.
      destruct (Z.eq_dec k (Z.of_nat (length pre))) as [->|Hne].
      * right. exists (Z.of_nat (length pre)). split; [reflexivity | lia].
      * destruct (Hcov k ltac:(lia) Hb) as [Hin|(s' & [=] & _)]. left. exact Hin.
    + intros s' [= <-]. lia.
Qed.

(** X1. A column is inside one of the ranges of the scan exactly when
    the row has a blank cell there. *)
Theorem in_subgroup_iff_blank :
  forall (row : list pystr) (k : Z),
    in_subgroup k (find_subgroups row) = true <-> blank_at row k.
Proof.
  intros row k. split.
  - intros H. unfold in_subgroup in H. apply existsb_exists in H.
    destruct H as (r & Hin & Hr).
    pose proof (find_subgroups_blank row) as Hb. rewrite Forall_forall in Hb.
    apply (Hb r Hin). unfold in_range in Hr. apply andb_true_iff in Hr.
    rewrite !Z.leb_le in Hr. exact Hr.
  - intros Hb.
    assert (Hk : 0 <= k < Z.of_nat (length row)).
    { destruct Hb as (H0 & c & Hc & _). split; [exact H0|].
      assert (Z.to_nat k < length row)%nat
        by (apply nth_error_Some; congruence).
      lia. }
    assert (Hinit : blanks_covered row [] None (@length pystr [])).
    { split; [intros k' Hk'; simpl in Hk'; lia | intros s [=]]. }
    pose proof (scan_subgroups_covers row row [] [] [] None
                  (eq_sym (app_nil_r row)) Hinit) as [Hcov Hs].
    cbn [length Nat.add] in Hcov, Hs.
    unfold find_subgroups.
    destruct (scan_subgroups row 0 [] None) as [ranges start_idx].
    cbn [fst snd] in Hcov, Hs.
    destruct (Hcov k Hk Hb) as [Hin|(s & -> & Hle)].
    + destruct start_idx; [|exact Hin].
      rewrite in_subgroup_app, Hin. reflexivity.
    + rewrite in_subgroup_app. apply orb_true_iff. right.
      cbn [in_subgroup existsb]. unfold in_range. cbn [fst snd].
      rewrite orb_false_r. apply andb_true_iff. rewrite !Z.leb_le. lia.
Qed.

Lemma separated_snoc (ranges : list (Z * Z)) :
  forall (lo s e : Z),
    separated lo ranges -> Forall (fun r => snd r + 2 <= s) ranges ->
    lo <= s <= e -> separated lo (ranges ++ [(s, e)]).
Proof.
  induction ranges as [|r ranges IH]; intros lo s e Hsep Hall Hse.
  - simpl. split; [exact Hse | exact I].
  - inversion Hall as [|? ? Hr Hrest]; subst.
    destruct Hsep as [Hlo Hsep]. cbn [app separated]. split; [exact Hlo|].
    apply IH; [exact Hsep | exact Hrest | lia].
Qed.

Lemma Forall_ends_le (ranges : list (Z * Z)) (a b : Z) :
  a <= b -> Forall (fun r => snd r + 2 <= a) ranges ->
  Forall (fun r => snd r + 2 <= b) ranges.
Proof.
  intros Hab. apply Forall_impl. intros r Hr. lia.
Qed.

Lemma scan_subgroups_separated (cells : list pystr) :
  forall (i : nat) (ranges : list (Z * Z)) (start_idx : option Z),
    separated 0 ranges -> ends_before ranges start_idx i ->
    separated 0 (fst (scan_subgroups cells i ranges start_idx))
    /\ ends_before (fst (scan_subgroups cells i ranges start_idx))
         (snd (scan_subgroups cells i ranges start_idx))
         (i + length cells).
Proof.
  induction cells as [|cell rest IH]; intros i ranges start_idx Hsep Hend.
  - simpl. rewrite Nat.add_0_r. split; assumption.
  - cbn [scan_subgroups length].
    replace (i + S (length rest))%nat with (S i + length rest)%nat by lia.
    destruct (populated cell); destruct start_idx as [s|]; apply IH;
      try assumption; unfold ends_before in *.
    + destruct Hend as [Hs Hall]. apply separated_snoc; [assumption..|lia].
    + destruct Hend as [Hs Hall]. apply Forall_app. split.
      * apply (Forall_ends_le _ s); [lia | exact Hall].
      * constructor; [cbn [snd]; lia | constructor].
    + apply (Forall_ends_le _ (Z.of_nat i)); [lia | exact Hend].
    + destruct Hend as [Hs Hall]. split; [lia | exact Hall].
    + split; [lia | exact Hend].
Qed.

(** X2. The ranges of a row are not empty, lie inside the row, come in
    increasing order and are kept apart by at least one column. *)
Theorem find_subgroups_separated :
  forall row : list pystr,
    separated 0 (find_subgroups row)
    /\ Forall (fun r => snd r < Z.of_nat (length row)) (find_subgroups row).
Proof.
  intros row.
  destruct (scan_subgroups_separated row 0 [] None I (Forall_nil _))
    as [Hsep Hend].
  cbn [Nat.add] in Hend. unfold find_subgroups.
  destruct (scan_subgroups row 0 [] None) as [ranges [s|]];
    cbn [fst snd ends_before] in *.
  - destruct Hend as [Hs Hall]. split.
    + apply separated_snoc; [assumption..|lia].
    + apply Forall_app. split.
      * revert Hall. apply Forall_impl. intros r Hr. lia.
      * constructor; [cbn [snd]; lia | constructor].
  - split; [exact Hsep|].
    revert Hend. apply Forall_impl. intros r Hr. lia.
Qed.

Lemma scan_subgroups_all_blank (cells : list pystr) :
  Forall (fun c => populated c = false) cells ->
  forall (i : nat) (ranges : list (Z * Z)) (start_idx : option Z),
    scan_subgroups cells i ranges start_idx
    = (ranges,
       match cells, start_idx with
       | _ :: _, None => Some (Z.of_nat i)
       | _, _ => start_idx
       end).
Proof.
  induction 1 as [|cell rest Hc _ IH]; intros i ranges start_idx.
  - destruct start_idx; reflexivity.
  - cbn [scan_subgroups]. rewrite Hc.
    destruct start_idx as [s|]; rewrite IH; destruct rest; reflexivity.
Qed.

Lemma scan_subgroups_all_populated (cells : list pystr) :
  Forall (fun c => populated c = true) cells ->
  forall (i : nat) (ranges : list (Z * Z)),
    scan_subgroups cells i ranges None = (ranges, None).
Proof.
  induction 1 as [|cell rest Hc _ IH]; intros i ranges; [reflexivity|].
  cbn [scan_subgroups]. rewrite Hc. apply IH.
Qed.

(** X3. A row of blank cells only has the one range that spans it, and a
    row with no blank cell has no range. *)
Theorem find_subgroups_uniform_row :
  forall row : list pystr,
    (row <> [] -> Forall (fun c => populated c = false) row ->
     find_subgroups row = [(0, Z.of_nat (length row) - 1)])
    /\ (Forall (fun c => populated c = true) row -> find_subgroups row = []).
Proof.
  intros row. split.
  - intros Hne Hall. unfold find_subgroups.
    rewrite (scan_subgroups_all_blank row Hall).
    destruct row; [congruence | reflexivity].
  - intros Hall. unfold find_subgroups.
    rewrite (scan_subgroups_all_populated row Hall). reflexivity.
Qed.

Lemma find_subgroups_uniform_row_witness :
  find_subgroups [lit ""; textemdash; lit ""] = [(0, 2)]
  /\ find_subgroups [lit "A"; lit "B"] = [].
Proof.
  split.
  - apply (proj1 (find_subgroups_uniform_row [lit ""; textemdash; lit ""]));
      [discriminate | repeat constructor].
  - apply (proj2 (find_subgroups_uniform_row [lit "A"; lit "B"])).
    repeat constructor.
Defined.

(** X4. Formatting a formatted row again changes nothing, whatever the
    previous rows are. *)
Theorem process_header_row_idempotent :
  forall (row : list pystr) (p q : option (list pystr)),
    process_header_row (process_header_row row p) q = process_header_row row p.
Proof.
  intros row p q. rewrite !process_header_row_plain, map_map.
  apply map_ext. intros cell. destruct (populated cell) eqn:E.
  - rewrite E. reflexivity.
  - reflexivity.
Qed.

(** ** The escaper *)

Lemma strip_nil : strip [] = [].
Proof. reflexivity. Qed.

Lemma escaped_char_not_nil (c : N) : escaped_char c <> [].
Proof.
  destruct (in_dec N.eq_dec c special_chars) as [Hin|Hout].
  - unfold special_chars in Hin.
    repeat (destruct Hin as [<-|Hin]; [vm_compute; discriminate|]).
    destruct Hin.
  - rewrite (escaped_char_other c Hout). discriminate.
Qed.

(** X5. The escaper never returns the empty string. *)
Theorem escape_latex_not_empty :
  forall v : value, escape_latex v <> [].
Proof.
  intros v. unfold escape_latex.
  destruct (str_in (strip (to_str v)) missing_values) eqn:Em; [discriminate|].
  destruct (str_eqb (strip (to_str v)) (lit "/")); [discriminate|].
  rewrite apply_replacements_chars.
  destruct (to_str v) as [|c t]; [discriminate Em|].
  cbn [flat_map]. intros H. apply app_eq_nil in H.
  exact (escaped_char_not_nil c (proj1 H)).
Qed.

Lemma escaped_text_not_marker (s : pystr) : flat_map escaped_char s <> textemdash.
Proof.
  destruct s as [|c t]; [discriminate|].
  cbn [flat_map]. intros H.
  destruct (in_dec N.eq_dec c special_chars) as [Hin|Hout].
  - unfold special_chars in Hin.
    repeat (destruct Hin as [<-|Hin]; [vm_compute in H; discriminate H|]).
    destruct Hin.
  - rewrite (escaped_char_other c Hout) in H.
    apply Hout. injection H as -> _. in_list.
Qed.

(** X6. The marker comes out for the missing values only: the escaper
    returns [\textemdash] exactly when the trimmed string form is one of
    them. *)
Theorem escape_latex_marker_iff_missing :
  forall v : value,
    escape_latex v = textemdash <-> In (strip (to_str v)) missing_values.
Proof.
  intros v. split.
  - unfold escape_latex.
    destruct (str_in (strip (to_str v)) missing_values) eqn:Em.
    + intros _. apply str_in_In. exact Em.
    + destruct (str_eqb (strip (to_str v)) (lit "/")); [discriminate|].
      rewrite apply_replacements_chars. intros H.
      destruct (escaped_text_not_marker _ H).
  - intros H. unfold escape_latex. apply str_in_In in H. rewrite H. reflexivity.
Qed.

Lemma populated_escape_latex (v : value) :
  populated (escape_latex v) = negb (str_in (strip (to_str v)) missing_values).
Proof.
  unfold escape_latex, populated.
  destruct (str_in (strip (to_str v)) missing_values) eqn:Em; [reflexivity|].
  destruct (str_eqb (strip (to_str v)) (lit "/")); [reflexivity|].
  rewrite apply_replacements_chars.
  assert (Hm : str_eqb (flat_map escaped_char (to_str v)) textemdash = false).
  { destruct (str_eqb _ _) eqn:E; [|reflexivity].
    apply str_eqb_eq in E. destruct (escaped_text_not_marker _ E). }
  rewrite Hm.
  destruct (to_str v) as [|c t]; [discriminate Em|].
  cbn [flat_map]. pose proof (escaped_char_not_nil c) as Hn.
  destruct (escaped_char c); [congruence | reflexivity].
Qed.

(** X7. In a header row a cell is left out exactly when it is a missing
    value, and escaped otherwise: escaping a raw row and formatting it
    gives the empty string for the missing values, where a data row
    shows the marker. *)
Theorem header_row_drops_missing_values :
  forall (raw : list pystr) (prev_row : option (list pystr)),
    process_header_row (escape_row raw) prev_row
    = map (fun cell =>
             if str_in (strip cell) missing_values then lit ""
             else escape_latex (VStr cell)) raw.
Proof.
  intros raw prev_row. rewrite process_header_row_plain.
  unfold escape_row. rewrite map_map. apply map_ext. intros cell.
  rewrite populated_escape_latex. cbn [to_str].
  destruct (str_in (strip cell) missing_values); reflexivity.
Qed.

Lemma flat_map_other (s : pystr) :
  Forall (fun c => ~ In c special_chars) s -> flat_map escaped_char s = s.
Proof.
  induction 1 as [|c t Hc _ IH]; [reflexivity|].
  cbn [flat_map]. rewrite (escaped_char_other c Hc), IH. reflexivity.
Qed.

(** X8. Text with none of the fourteen special characters that is
    neither a missing value nor a slash in whitespace comes back as it
    is, surrounding whitespace included. *)
Theorem escape_latex_plain_text :
  forall s : pystr,
    Forall (fun c => ~ In c special_chars) s ->
    ~ In (strip s) missing_values ->
    strip s <> lit "/" ->
    escape_latex (VStr s) = s.
Proof.
  intros s Hplain Hmiss Hslash. unfold escape_latex. cbn [to_str].
  destruct (str_in (strip s) missing_values) eqn:Em.
  - apply str_in_In in Em. contradiction.
  - destruct (str_eqb (strip s) (lit "/")) eqn:Es.
    + apply str_eqb_eq in Es. contradiction.
    + rewrite apply_replacements_chars. apply flat_map_other. exact Hplain.
Qed.

Lemma escape_latex_plain_text_witness :
  escape_latex (VStr (lit "  Mean value (kW) ")) = lit "  Mean value (kW) ".
Proof.
  apply (escape_latex_plain_text (lit "  Mean value (kW) ")).
  - repeat constructor; vm_compute; intuition discriminate.
  - vm_compute. intuition discriminate.
  - vm_compute. discriminate.
Defined.

Lemma char_guarded_free (k : N) (a b : pystr) :
  char_free k a = true -> (forall q, char_guarded k q b = true) ->
  forall p : N, char_guarded k p (a ++ b) = true.
Proof.
  intros Hfree Hb. induction a as [|c a IH]; intros p; [apply Hb|].
  simpl in Hfree. apply andb_true_iff in Hfree. destruct Hfree as [Hc Ha].
  cbn [app char_guarded]. rewrite Hc, (IH Ha). reflexivity.
Qed.

Lemma char_guarded_escaped (k : N) (b : pystr) :
  k <> 92%N ->
  (forall q, char_guarded k q b = true) ->
  forall p : N, char_guarded k p ([92%N; k] ++ b) = true.
Proof.
  intros Hk Hb p. cbn [app char_guarded]. rewrite Hb, N.eqb_refl.
  assert (E : (92 =? k)%N = false) by (apply N.eqb_neq; congruence).
  rewrite E. destruct (negb (k =? k)%N); reflexivity.
Qed.

Lemma char_free_other (k c : N) : c <> k -> char_free k [c] = true.
Proof.
  intros H. cbn [char_free forallb]. rewrite andb_true_r.
  apply negb_true_iff, N.eqb_neq. exact H.
Qed.

(** What the table makes of a character holds a character escaped by a
    backslash only as the escaped character. *)
Lemma escaped_char_guarded (k : N) :
  In k backslash_escaped ->
  forall c : N, escaped_char c = [92%N; k] \/ char_free k (escaped_char c) = true.
Proof.
  intros Hk c.
  destruct (in_dec N.eq_dec c special_chars) as [Hin|Hout].
  - unfold backslash_escaped in Hk. unfold special_chars in Hin.
    repeat (destruct Hk as [<-|Hk];
            [repeat (destruct Hin as [<-|Hin];
                     [first [left; reflexivity | right; reflexivity]|]);
             destruct Hin|]).
    destruct Hk.
  - right. rewrite (escaped_char_other c Hout). apply char_free_other.
    intros ->. apply Hout.
    unfold backslash_escaped in Hk.
    repeat (destruct Hk as [<-|Hk]; [in_list|]). destruct Hk.
Qed.

(** X9. In what the escaper returns, every ampersand, percent sign,
    dollar sign, hash and underscore comes right after a backslash. *)
Theorem escape_latex_no_bare_special :
  forall (k : N) (v : value),
    In k backslash_escaped -> char_guarded k 0 (escape_latex v) = true.
Proof.
  intros k v Hk. unfold escape_latex.
  destruct (str_in _ _).
  { unfold backslash_escaped in Hk.
    repeat (destruct Hk as [<-|Hk]; [reflexivity|]). destruct Hk. }
  destruct (str_eqb _ _).
  { unfold backslash_escaped in Hk.
    repeat (destruct Hk as [<-|Hk]; [reflexivity|]). destruct Hk. }
  rewrite apply_replacements_chars. generalize 0%N.
  induction (to_str v) as [|c t IH]; intros p; [reflexivity|].
  cbn [flat_map]. destruct (escaped_char_guarded k Hk c) as [-> | Hfree].
  - apply char_guarded_escaped; [|exact IH].
    unfold backslash_escaped in Hk.
    repeat (destruct Hk as [<-|Hk]; [discriminate|]). destruct Hk.
  - apply char_guarded_free; assumption.
Qed.

Lemma escape_latex_no_bare_special_witness :
  char_guarded 95 0 (escape_latex (VStr (lit "a_b & 50%"))) = true.
Proof.
  apply (escape_latex_no_bare_special 95 (VStr (lit "a_b & 50%"))).
  unfold backslash_escaped. do 4 right. left. reflexivity.
Defined.

Lemma escaped_char_spelled_out (k : N) :
  In k spelled_out -> forall c : N, char_free k (escaped_char c) = true.
Proof.
  intros Hk c.
  destruct (in_dec N.eq_dec c special_chars) as [Hin|Hout].
  - unfold spelled_out in Hk. unfold special_chars in Hin.
    repeat (destruct Hk as [<-|Hk];
            [repeat (destruct Hin as [<-|Hin]; [reflexivity|]);
             destruct Hin|]).
    destruct Hk.
  - rewrite (escaped_char_other c Hout). apply char_free_other.
    intros ->. apply Hout.
    unfold spelled_out in Hk.
    repeat (destruct Hk as [<-|Hk]; [in_list|]). destruct Hk.
Qed.

Lemma char_free_app (k : N) (a b : pystr) :
  char_free k (a ++ b) = char_free k a && char_free k b.
Proof. apply forallb_app. Qed.

(** X10. What the escaper returns holds no tilde, caret, less-than or
    greater-than sign at all. *)
Theorem escape_latex_spells_out :
  forall (k : N) (v : value),
    In k spelled_out -> ~ In k (escape_latex v).
Proof.
  intros k v Hk.
  assert (Hfree : char_free k (escape_latex v) = true).
  { unfold escape_latex.
    destruct (str_in _ _).
    { unfold spelled_out in Hk.
      repeat (destruct Hk as [<-|Hk]; [reflexivity|]). destruct Hk. }
    destruct (str_eqb _ _).
    { unfold spelled_out in Hk.
      repeat (destruct Hk as [<-|Hk]; [reflexivity|]). destruct Hk. }
    rewrite apply_replacements_chars.
    induction (to_str v) as [|c t IH]; [reflexivity|].
    cbn [flat_map]. rewrite char_free_app, IH, (escaped_char_spelled_out k Hk).
    reflexivity. }
  intros Hin. unfold char_free in Hfree. rewrite forallb_forall in Hfree.
  specialize (Hfree k Hin). rewrite N.eqb_refl in Hfree. discriminate Hfree.
Qed.

Lemma escape_latex_spells_out_witness :
  ~ In 126%N (escape_latex (VStr (lit "~x < y^2"))).
Proof.
  apply (escape_latex_spells_out 126 (VStr (lit "~x < y^2"))).
  left. reflexivity.
Defined.

(** ** Normalizing and reading *)

Lemma pad_rows_noop (ncols : nat) (data : table) :
  Forall (fun row => (ncols <= length row)%nat) data -> pad_rows ncols data = data.
Proof.
  induction 1 as [|row data Hrow _ IH]; [reflexivity|].
  cbn [pad_rows map]. fold (pad_rows ncols data). rewrite IH.
  destruct (Nat.ltb_spec (length row) ncols); [lia | reflexivity].
Qed.

Lemma ncols_of_rectangular (data : table) (n : nat) :
  data <> [] -> Forall (fun row => length row = n) data -> ncols_of data = n.
Proof.
  intros Hne Hall.
  assert (Hin : In (ncols_of data) (map (@length pystr) data)).
  { apply list_max_attained. destruct data; [congruence | discriminate]. }
  apply in_map_iff in Hin. destruct Hin as (row & Hlen & Hin).
  rewrite Forall_forall in Hall. rewrite <- Hlen. apply Hall, Hin.
Qed.

(** X11. A table whose rows all have the same length is left as it is by
    the padding; so padding a padded table changes nothing. *)
Theorem pad_rows_rectangular :
  forall data : table,
    (forall (n : nat),
        Forall (fun row => length row = n) data ->
        pad_rows (ncols_of data) data = data)
    /\ pad_rows (ncols_of (pad_rows (ncols_of data) data))
         (pad_rows (ncols_of data) data)
       = pad_rows (ncols_of data) data.
Proof.
  intros data.
  assert (Hrect : forall (d : table) (n : nat),
             Forall (fun row => length row = n) d ->
             pad_rows (ncols_of d) d = d).
  { intros d n Hall. destruct d as [|r d]; [reflexivity|].
    apply pad_rows_noop.
    rewrite (ncols_of_rectangular (r :: d) n ltac:(discriminate) Hall).
    revert Hall. apply Forall_impl. intros row ->. apply Nat.le_refl. }
  split; [apply Hrect|].
  apply (Hrect _ (ncols_of data)), pad_rows_width.
Qed.

Lemma pad_rows_rectangular_witness :
  pad_rows (ncols_of [[lit "a"; lit "b"]; [lit "c"; lit "d"]])
    [[lit "a"; lit "b"]; [lit "c"; lit "d"]]
  = [[lit "a"; lit "b"]; [lit "c"; lit "d"]].
Proof.
  apply (proj1 (pad_rows_rectangular [[lit "a"; lit "b"]; [lit "c"; lit "d"]]) 2%nat).
  repeat constructor.
Defined.

(** X12. The reading loop stops at the first candidate encoding that
    gives rows: it returns these rows, prints one line for each earlier
    candidate that raised and the line of the success, never tries the
    candidates after it, and leaves the output file alone. *)
Theorem read_loop_first_success :
  forall (w : world) (input_csv : pystr) (before after : list pystr)
         (enc : pystr) (rows : table) (st : state),
    no_rows w input_csv before ->
    read_csv w input_csv enc = Ret rows -> rows <> [] ->
    read_loop w input_csv (before ++ enc :: after) [] st
    = (Ret rows,
       {| stdout := stdout st ++ failure_lines w input_csv before
                    ++ [lit "Successfully read with " ++ enc ++ lit " encoding"];
          written := written st; nwrites := nwrites st |}).
Proof.
  intros w input_csv before after enc rows st Hno Hok Hne. revert st.
  induction Hno as [|e0 before Hhead _ IH]; intros st.
  - cbn [app read_loop failure_lines flat_map]. rewrite Hok.
    destruct rows as [|r rows]; [congruence|]. reflexivity.
  - cbn [app read_loop failure_lines flat_map].
    destruct (read_csv w input_csv e0) as [[|r0 rows0]|e] eqn:E.
    + cbn [nonempty app]. apply IH.
    + discriminate (Hhead _ eq_refl).
    + rewrite (bind_ret_step (print _) _ _ _ _ eq_refl), IH.
      cbn [stdout written nwrites]. rewrite <- app_assoc. reflexivity.
Qed.

Lemma read_loop_first_success_witness :
  read_loop sample_world (lit "Book1.csv") ([] ++ lit "ascii" :: [lit "latin1"]) []
    empty_state
  = (Ret [[lit "Name"; lit "Value"]; [lit "a_b"]],
     {| stdout := stdout empty_state
                  ++ failure_lines sample_world (lit "Book1.csv") []
                  ++ [lit "Successfully read with " ++ lit "ascii" ++ lit " encoding"];
        written := written empty_state; nwrites := nwrites empty_state |}).
Proof.
  apply (read_loop_first_success sample_world (lit "Book1.csv") []
           [lit "latin1"] (lit "ascii")).
  - constructor.
  - reflexivity.
  - discriminate.
Defined.

(** X13. When no candidate encoding gives rows the reading loop returns
    the empty list, having printed one line for each candidate that
    raised and none for those that read an empty file. *)
Theorem read_loop_exhausted :
  forall (w : world) (input_csv : pystr) (encs : list pystr) (st : state),
    no_rows w input_csv encs ->
    read_loop w input_csv encs [] st
    = (Ret [],
       {| stdout := stdout st ++ failure_lines w input_csv encs;
          written := written st; nwrites := nwrites st |}).
Proof.
  intros w input_csv encs st Hno. revert st.
  induction Hno as [|e0 encs Hhead _ IH]; intros st.
  - cbn [read_loop failure_lines flat_map]. unfold ret.
    rewrite app_nil_r. destruct st; reflexivity.
  - cbn [read_loop failure_lines flat_map].
    destruct (read_csv w input_csv e0) as [[|r0 rows0]|e] eqn:E.
    + cbn [nonempty app]. apply IH.
    + discriminate (Hhead _ eq_refl).
    + rewrite (bind_ret_step (print _) _ _ _ _ eq_refl), IH.
      cbn [stdout written nwrites]. rewrite <- app_assoc. reflexivity.
Qed.

Lemma read_loop_exhausted_witness :
  read_loop unreadable_world (lit "Book1.csv") [lit "utf-8"; lit "latin1"] []
    empty_state
  = (Ret [],
     {| stdout := stdout empty_state
                  ++ failure_lines unreadable_world (lit "Book1.csv")
                       [lit "utf-8"; lit "latin1"];
        written := written empty_state; nwrites := nwrites empty_state |}).
Proof.
  apply (read_loop_exhausted unreadable_world (lit "Book1.csv")
           [lit "utf-8"; lit "latin1"] empty_state).
  repeat constructor; intros rows H; discriminate H.
Defined.

(** ** How a conversion ends *)

Section Endings.

Variables (w : world) (input_csv output_tex caption label : pystr).
Variables (landscape : bool) (header_lines : Z) (st : state).

(** The state after reading: some lines more on the console, the output
    as it was. *)
Lemma csv_to_latex_table_reads (k : table -> M bool) :
  exists out,
    bind (print (lit "Detected encoding: " ++ detect_encoding w input_csv))
      (fun _ =>
         bind (read_loop w input_csv
                 (encodings_to_try (detect_encoding w input_csv)) []) k) st
    = k (loaded w input_csv (encodings_to_try (detect_encoding w input_csv)))
        {| stdout := stdout st ++ out; written := written st;
           nwrites := nwrites st |}.
Proof.
  rewrite (bind_ret_step (print _) _ _ _ _ eq_refl).
  match goal with
  | |- context [bind (read_loop _ _ _ _) _ ?s] =>
      destruct (read_loop_loaded w input_csv
                  (encodings_to_try (detect_encoding w input_csv)) s)
        as [out Hout]
  end.
  cbn [stdout written nwrites] in Hout.
  rewrite (bind_ret_step _ _ _ _ _ Hout).
  eexists. rewrite <- app_assoc. reflexivity.
Qed.

(** With rows and header lines in range the conversion comes to the
    [try] with the output untouched. *)
Lemma csv_to_latex_table_reaches_output :
  let data := loaded w input_csv (encodings_to_try (detect_encoding w input_csv)) in
  data <> [] -> 0 <= header_lines <= Z.of_nat (length data) ->
  exists out,
    csv_to_latex_table w input_csv output_tex caption label landscape
      header_lines st
    = try_except
        (with_open_w w output_tex
           (write_document w caption label landscape (ncols_of data)
              (repeat base_width (ncols_of data))
              (header_rows_of data header_lines)
              (data_rows_of data header_lines)) ;;;
         ret true)
        (fun e => print (lit "Error writing LaTeX: " ++ exn_str e) ;;; ret false)
        {| stdout := stdout st ++ out; written := written st;
           nwrites := nwrites st |}.
Proof.
  intros data Hne Hh. unfold csv_to_latex_table.
  match goal with
  | |- context [bind (read_loop _ _ _ _) ?k] =>
      destruct (csv_to_latex_table_reads k) as [out Hout]
  end.
  rewrite Hout. fold data.
  replace (nonempty data) with true by (destruct data; [congruence | reflexivity]).
  cbn [negb].
  destruct (Z.ltb_spec (Z.of_nat (length data)) header_lines) as [Hlt|_]; [lia|].
  rewrite (py_max_ncols data Hne).
  rewrite (bind_ret_step (lift _) _ _ _ _ eq_refl).
  rewrite (bind_ret_step (print _) _ _ _ _ eq_refl).
  cbv zeta.
  assert (Hrange : 0 <= header_lines
                   <= Z.of_nat (length (pad_rows (ncols_of data) data)))
    by (rewrite pad_rows_length; lia).
  rewrite (header_loop_rows _ _ Hrange).
  rewrite (bind_ret_step (lift _) _ _ _ _ eq_refl).
  rewrite (data_loop_rows _ _ Hrange).
  rewrite (bind_ret_step (lift _) _ _ _ _ eq_refl).
  cbn [stdout written nwrites].
  eexists. rewrite <- app_assoc. reflexivity.
Qed.

End Endings.

Lemma write_all_stops (w : world) (chunks : list pystr) :
  forall (k : nat) (st : state) (e : exn),
    (k < length chunks)%nat ->
    (forall j, (j < k)%nat -> write_fail w (nwrites st + j) = None) ->
    write_fail w (nwrites st + k) = Some e ->
    write_all w chunks st
    = (Raise e, {| stdout := stdout st; written := written st ++ firstn k chunks;
                   nwrites := nwrites st + S k |}).
Proof.
  unfold write_all.
  induction chunks as [|c chunks IH]; intros k st e Hk Hok Hfail;
    [simpl in Hk; lia|].
  cbn [for_each]. destruct k as [|k].
  - rewrite Nat.add_0_r in Hfail.
    assert (Hw : write w c st
                 = (Raise e, {| stdout := stdout st; written := written st;
                                nwrites := S (nwrites st) |}))
      by (unfold write; rewrite Hfail; reflexivity).
    rewrite (bind_raise_step _ _ _ _ _ Hw). cbn [firstn].
    rewrite app_nil_r, Nat.add_1_r. reflexivity.
  - assert (H0 : write_fail w (nwrites st) = None)
      by (rewrite <- (Nat.add_0_r (nwrites st)); apply Hok; lia).
    assert (Hw : write w c st
                 = (Ret tt, {| stdout := stdout st; written := written st ++ [c];
                               nwrites := S (nwrites st) |}))
      by (unfold write; rewrite H0; reflexivity).
    rewrite (bind_ret_step _ _ _ _ _ Hw).
    rewrite (IH k _ e); cbn [stdout written nwrites].
    + cbn [firstn]. rewrite <- app_assoc.
      replace (S (nwrites st) + S k)%nat with (nwrites st + S (S k))%nat by lia.
      reflexivity.
    + simpl in Hk. lia.
    + intros j Hj.
      replace (S (nwrites st) + j)%nat with (nwrites st + S j)%nat by lia.
      apply Hok. lia.
    + replace (S (nwrites st) + k)%nat with (nwrites st + S k)%nat by lia.
      exact Hfail.
Qed.

(** X14. When no rows could be read, or there are fewer rows than header
    lines, the conversion returns [False] without opening the output:
    the file keeps what it held. *)
Theorem csv_to_latex_table_fails_before_output :
  forall (w : world) (input_csv output_tex caption label : pystr)
         (landscape : bool) (header_lines : Z) (st : state),
    let data := loaded w input_csv (encodings_to_try (detect_encoding w input_csv)) in
    data = [] \/ Z.of_nat (length data) < header_lines ->
    exists st',
      csv_to_latex_table w input_csv output_tex caption label landscape
        header_lines st = (Ret false, st')
      /\ written st' = written st /\ nwrites st' = nwrites st.
Proof.
  intros w input_csv output_tex caption label landscape header_lines st data H.
  unfold csv_to_latex_table.
  match goal with
  | |- context [bind (read_loop _ _ _ _) ?k] =>
      destruct (csv_to_latex_table_reads w input_csv st k) as [out Hout]
  end.
  rewrite Hout. fold data.
  destruct data as [|r rest] eqn:Ed.
  - cbn [nonempty negb]. rewrite (bind_ret_step (print _) _ _ _ _ eq_refl).
    eexists. split; [reflexivity|]. split; reflexivity.
  - destruct H as [H|H]; [discriminate H|].
    cbn [nonempty negb].
    destruct (Z.ltb_spec (Z.of_nat (length (r :: rest))) header_lines) as [_|Hge];
      [|lia].
    rewrite (bind_ret_step (print _) _ _ _ _ eq_refl).
    eexists. split; [reflexivity|]. split; reflexivity.
Qed.

Lemma csv_to_latex_table_fails_before_output_witness :
  exists st',
    csv_to_latex_table sample_world (lit "Book1.csv") (lit "output.tex")
      (lit "Summary") (lit "tab:summary") true 3 empty_state = (Ret false, st')
    /\ written st' = written empty_state /\ nwrites st' = nwrites empty_state.
Proof.
  apply (csv_to_latex_table_fails_before_output sample_world (lit "Book1.csv")
           (lit "output.tex") (lit "Summary") (lit "tab:summary") true 3
           empty_state).
  right. vm_compute. reflexivity.
Defined.

(** X15. When rows were read, the header lines are in range and the
    output does not fail, the conversion returns [True] and the file
    holds the document and nothing else, whatever it held before, after
    one [write] for each of its strings. *)
Theorem csv_to_latex_table_writes_document :
  forall (w : world) (input_csv output_tex caption label : pystr)
         (landscape : bool) (header_lines : Z) (st : state),
    let data := loaded w input_csv (encodings_to_try (detect_encoding w input_csv)) in
    let doc := document_of caption label landscape data header_lines in
    data <> [] -> 0 <= header_lines <= Z.of_nat (length data) ->
    ~ output_error w output_tex (nwrites st) (length doc) ->
    exists st',
      csv_to_latex_table w input_csv output_tex caption label landscape
        header_lines st = (Ret true, st')
      /\ written st' = doc /\ nwrites st' = (nwrites st + length doc)%nat.
Proof.
  intros w input_csv output_tex caption label landscape header_lines st data doc
         Hne Hh Hok.
  destruct (csv_to_latex_table_reaches_output w input_csv output_tex caption
              label landscape header_lines st Hne Hh) as [out Hrun].
  rewrite Hrun.
  match goal with
  | |- context [try_except _ _ ?s] =>
      destruct (try_write_cases w output_tex _ _ s
                  (write_document_writes w caption label landscape
                     (ncols_of data) (repeat base_width (ncols_of data))
                     (header_rows_of data header_lines)
                     (data_rows_of data header_lines)))
        as [[_ Hr]|[Herr _]]
  end; cbn [stdout written nwrites] in *.
  - eexists. split; [exact Hr|]. split; reflexivity.
  - contradiction.
Qed.

Lemma csv_to_latex_table_writes_document_witness :
  exists st',
    csv_to_latex_table sample_world (lit "Book1.csv") (lit "output.tex")
      (lit "Summary") (lit "tab:summary") false 1
      {| stdout := []; written := [lit "old content"]; nwrites := 0 |}
    = (Ret true, st')
    /\ length (written st') = 25%nat /\ nwrites st' = 25%nat.
Proof.
  destruct (csv_to_latex_table_writes_document sample_world (lit "Book1.csv")
              (lit "output.tex") (lit "Summary") (lit "tab:summary") false 1
              {| stdout := []; written := [lit "old content"]; nwrites := 0 |})
    as (st' & Hrun & Hw & Hn).
  - discriminate.
  - vm_compute. split; discriminate.
  - intros [H|[(k & _ & H)|H]]; apply H; reflexivity.
  - exists st'. split; [exact Hrun|]. rewrite Hw, Hn. split; reflexivity.
Defined.

(** The [try] when the k-th [write] is the first to fail: the closing
    still takes place, and its error, if any, is the one reported. *)
Lemma try_write_stops (w : world) (output_tex : pystr) (body : M unit)
      (chunks : list pystr) (st : state) (k : nat) (e : exn) :
  writes w body chunks ->
  open_w w output_tex = None ->
  (k < length chunks)%nat ->
  (forall j, (j < k)%nat -> write_fail w (nwrites st + j) = None) ->
  write_fail w (nwrites st + k) = Some e ->
  try_except (with_open_w w output_tex body ;;; ret true)
    (fun e => print (lit "Error writing LaTeX: " ++ exn_str e) ;;; ret false) st
  = (Ret false,
     {| stdout := stdout st
                  ++ [lit "Error writing LaTeX: "
                      ++ exn_str (match close_fail w with
                                  | Some e' => e'
                                  | None => e
                                  end)];
        written := firstn k chunks; nwrites := nwrites st + S k |}).
Proof.
  intros Hbody Hopen Hk Hok Hfail.
  unfold try_except, bind, with_open_w. rewrite Hopen, Hbody.
  rewrite (write_all_stops w chunks k _ e Hk); cbn [stdout written nwrites];
    [|exact Hok | exact Hfail].
  destruct (close_fail w); reflexivity.
Qed.

(** The [try] when the writes succeed and the closing fails. *)
Lemma try_close_fails (w : world) (output_tex : pystr) (body : M unit)
      (chunks : list pystr) (st : state) (e : exn) :
  writes w body chunks ->
  open_w w output_tex = None ->
  (forall j, (j < length chunks)%nat -> write_fail w (nwrites st + j) = None) ->
  close_fail w = Some e ->
  try_except (with_open_w w output_tex body ;;; ret true)
    (fun e => print (lit "Error writing LaTeX: " ++ exn_str e) ;;; ret false) st
  = (Ret false,
     {| stdout := stdout st ++ [lit "Error writing LaTeX: " ++ exn_str e];
        written := chunks; nwrites := nwrites st + length chunks |}).
Proof.
  intros Hbody Hopen Hok Hclose.
  unfold try_except, bind, with_open_w. rewrite Hopen, Hbody.
  destruct (write_all_cases w chunks
              {| stdout := stdout st; written := []; nwrites := nwrites st |})
    as [[_ Hw]|[(j & Hj & Hf) _]]; cbn [stdout written nwrites] in *.
  - rewrite Hw, Hclose. reflexivity.
  - destruct (Hf (Hok j Hj)).
Qed.

(** X16. When the output cannot be opened the conversion returns
    [False], prints the error, and the file keeps what it held. *)
Theorem csv_to_latex_table_open_failure :
  forall (w : world) (input_csv output_tex caption label : pystr)
         (landscape : bool) (header_lines : Z) (st : state) (e : exn),
    let data := loaded w input_csv (encodings_to_try (detect_encoding w input_csv)) in
    data <> [] -> 0 <= header_lines <= Z.of_nat (length data) ->
    open_w w output_tex = Some e ->
    exists st',
      csv_to_latex_table w input_csv output_tex caption label landscape
        header_lines st = (Ret false, st')
      /\ written st' = written st /\ nwrites st' = nwrites st
      /\ last (stdout st') [] = lit "Error writing LaTeX: " ++ exn_str e.
Proof.
  intros w input_csv output_tex caption label landscape header_lines st e data
         Hne Hh Hopen.
  destruct (csv_to_latex_table_reaches_output w input_csv output_tex caption
              label landscape header_lines st Hne Hh) as [out Hrun].
  rewrite Hrun. unfold try_except, bind, with_open_w. rewrite Hopen.
  eexists. split; [reflexivity|]. cbn [stdout written nwrites print ret].
  split; [reflexivity|]. split; [reflexivity|]. apply last_snoc.
Qed.

Lemma csv_to_latex_table_open_failure_witness :
  let w := output_world (fun _ => Some (Exception (lit "Permission denied")))
             (fun _ => None) None in
  let st := {| stdout := []; written := [lit "old content"]; nwrites := 0 |} in
  exists st',
    csv_to_latex_table w (lit "Book1.csv") (lit "output.tex") (lit "Summary")
      (lit "tab:summary") true 1 st = (Ret false, st')
    /\ written st' = [lit "old content"] /\ nwrites st' = 0%nat
    /\ last (stdout st') [] = lit "Error writing LaTeX: Permission denied".
Proof.
  intros w st.
  apply (csv_to_latex_table_open_failure w (lit "Book1.csv") (lit "output.tex")
           (lit "Summary") (lit "tab:summary") true 1 st
           (Exception (lit "Permission denied"))).
  - discriminate.
  - vm_compute. split; discriminate.
  - reflexivity.
Defined.

(** X17. When the output opens and the k-th [write] is the first to
    fail, no further [write] is attempted, the file is closed, and the
    conversion returns [False] after printing the error: that of the
    closing when the closing fails too, that of the [write] otherwise. *)
Theorem csv_to_latex_table_write_failure :
  forall (w : world) (input_csv output_tex caption label : pystr)
         (landscape : bool) (header_lines : Z) (st : state) (k : nat) (e : exn),
    let data := loaded w input_csv (encodings_to_try (detect_encoding w input_csv)) in
    let doc := document_of caption label landscape data header_lines in
    data <> [] -> 0 <= header_lines <= Z.of_nat (length data) ->
    open_w w output_tex = None ->
    (k < length doc)%nat ->
    (forall j, (j < k)%nat -> write_fail w (nwrites st + j) = None) ->
    write_fail w (nwrites st + k) = Some e ->
    exists st',
      csv_to_latex_table w input_csv output_tex caption label landscape
        header_lines st = (Ret false, st')
      /\ nwrites st' = (nwrites st + S k)%nat
      /\ last (stdout st') []
         = lit "Error writing LaTeX: "
           ++ exn_str (match close_fail w with
                       | Some e' => e'
                       | None => e
                       end).
Proof.
  intros w input_csv output_tex caption label landscape header_lines st k e
         data doc Hne Hh Hopen Hk Hok Hfail.
  destruct (csv_to_latex_table_reaches_output w input_csv output_tex caption
              label landscape header_lines st Hne Hh) as [out Hrun].
  pose proof (try_write_stops w output_tex _ _
                {| stdout := stdout st ++ out; written := written st;
                   nwrites := nwrites st |} k e
                (write_document_writes w caption label landscape
                   (ncols_of data) (repeat base_width (ncols_of data))
                   (header_rows_of data header_lines)
                   (data_rows_of data header_lines))
                Hopen Hk Hok Hfail) as Htry.
  eexists. split; [exact (eq_trans Hrun Htry)|].
  cbn [stdout written nwrites].
  split; [reflexivity | apply last_snoc].
Qed.

Lemma csv_to_latex_table_write_failure_witness :
  let w := output_world (fun _ => None)
             (fun k => if (k =? 2)%nat
                       then Some (Exception (lit "No space left on device"))
                       else None)
             (Some (Exception (lit "Input/output error"))) in
  exists st',
    csv_to_latex_table w (lit "Book1.csv") (lit "output.tex") (lit "Summary")
      (lit "tab:summary") true 1 empty_state = (Ret false, st')
    /\ nwrites st' = 3%nat
    /\ last (stdout st') [] = lit "Error writing LaTeX: Input/output error".
Proof.
  intros w.
  apply (csv_to_latex_table_write_failure w (lit "Book1.csv") (lit "output.tex")
           (lit "Summary") (lit "tab:summary") true 1 empty_state 2%nat
           (Exception (lit "No space left on device"))).
  - discriminate.
  - vm_compute. split; discriminate.
  - reflexivity.
  - vm_compute. lia.
  - intros [|[|j]] Hj; [reflexivity | reflexivity | lia].
  - reflexivity.
Defined.

(** X18. When every [write] succeeds and closing the file fails, the
    conversion has made all its [write] calls and still returns [False],
    printing the error of the closing. *)
Theorem csv_to_latex_table_close_failure :
  forall (w : world) (input_csv output_tex caption label : pystr)
         (landscape : bool) (header_lines : Z) (st : state) (e : exn),
    let data := loaded w input_csv (encodings_to_try (detect_encoding w input_csv)) in
    let doc := document_of caption label landscape data header_lines in
    data <> [] -> 0 <= header_lines <= Z.of_nat (length data) ->
    open_w w output_tex = None ->
    (forall j, (j < length doc)%nat -> write_fail w (nwrites st + j) = None) ->
    close_fail w = Some e ->
    exists st',
      csv_to_latex_table w input_csv output_tex caption label landscape
        header_lines st = (Ret false, st')
      /\ nwrites st' = (nwrites st + length doc)%nat
      /\ last (stdout st') [] = lit "Error writing LaTeX: " ++ exn_str e.
Proof.
  intros w input_csv output_tex caption label landscape header_lines st e
         data doc Hne Hh Hopen Hok Hclose.
  destruct (csv_to_latex_table_reaches_output w input_csv output_tex caption
              label landscape header_lines st Hne Hh) as [out Hrun].
  pose proof (try_close_fails w output_tex _ _
                {| stdout := stdout st ++ out; written := written st;
                   nwrites := nwrites st |} e
                (write_document_writes w caption label landscape
                   (ncols_of data) (repeat base_width (ncols_of data))
                   (header_rows_of data header_lines)
                   (data_rows_of data header_lines))
                Hopen Hok Hclose) as Htry.
  eexists. split; [exact (eq_trans Hrun Htry)|].
  cbn [stdout written nwrites].
  split; [reflexivity | apply last_snoc].
Qed.

Lemma csv_to_latex_table_close_failure_witness :
  let w := output_world (fun _ => None) (fun _ => None)
             (Some (Exception (lit "Input/output error"))) in
  exists st',
    csv_to_latex_table w (lit "Book1.csv") (lit "output.tex") (lit "Summary")
      (lit "tab:summary") true 1 empty_state = (Ret false, st')
    /\ nwrites st' = 27%nat
    /\ last (stdout st') [] = lit "Error writing LaTeX: Input/output error".
Proof.
  intros w.
  destruct (csv_to_latex_table_close_failure w (lit "Book1.csv")
              (lit "output.tex") (lit "Summary") (lit "tab:summary") true 1
              empty_state (Exception (lit "Input/output error")))
    as (st' & Hrun & Hn & Hl).
  - discriminate.
  - vm_compute. split; discriminate.
  - reflexivity.
  - reflexivity.
  - reflexivity.
  - exists st'. split; [exact Hrun|]. rewrite Hn. split; [reflexivity | exact Hl].
Defined.

(** ** The size of the document *)

Lemma header_block_length (header_rows : table) :
  length (header_block header_rows)
  = (length header_rows + if nonempty header_rows then 1 else 0)%nat.
Proof.
  unfold header_block. rewrite length_app, length_map.
  destruct header_rows; reflexivity.
Qed.

(** The number of strings of the document. *)
Lemma document_of_length :
  forall (caption label : pystr) (landscape : bool) (data : table)
         (header_lines : Z),
    0 <= header_lines <= Z.of_nat (length data) ->
    length (header_rows_of data header_lines) = Z.to_nat header_lines
    /\ length (data_rows_of data header_lines)
       = (length data - Z.to_nat header_lines)%nat
    /\ length (document_of caption label landscape data header_lines)
       = ((if landscape then 2 else 0) + 20
          + 2 * (Z.to_nat header_lines + if (header_lines =? 0)%Z then 0 else 1)
          + (length data - Z.to_nat header_lines))%nat.
Proof.
  intros caption label landscape data header_lines Hh.
  assert (Hhr : length (header_rows_of data header_lines) = Z.to_nat header_lines).
  { unfold header_rows_of. rewrite length_map, length_firstn, pad_rows_length. lia. }
  assert (Hdr : length (data_rows_of data header_lines)
                = (length data - Z.to_nat header_lines)%nat).
  { unfold data_rows_of. rewrite length_map, length_skipn, pad_rows_length.
    reflexivity. }
  split; [exact Hhr|]. split; [exact Hdr|].
  assert (Hne : (if nonempty (header_rows_of data header_lines) then 1 else 0)%nat
                = (if (header_lines =? 0)%Z then 0 else 1)%nat).
  { destruct (Z.eqb_spec header_lines 0) as [->|Hnz].
    - destruct (header_rows_of data 0); [reflexivity | discriminate Hhr].
    - destruct (header_rows_of data header_lines); [simpl in Hhr; lia | reflexivity]. }
  unfold document_of, document.
  repeat rewrite length_app. rewrite !header_block_length, length_map, Hne, Hhr, Hdr.
  destruct landscape; cbn [length]; lia.
Qed.

(** X19. A conversion in which nothing fails returns [True] after a
    number of [write] calls that the table fixes: twenty, two more in
    landscape, one for each data row, and for each of the two header
    blocks one for each header row and one more for the closing rule
    when there is a header row at all. *)
Theorem csv_to_latex_table_write_count :
  forall (w : world) (input_csv output_tex caption label : pystr)
         (landscape : bool) (header_lines : Z) (st : state),
    let data := loaded w input_csv (encodings_to_try (detect_encoding w input_csv)) in
    data <> [] -> 0 <= header_lines <= Z.of_nat (length data) ->
    open_w w output_tex = None ->
    (forall k, write_fail w k = None) ->
    close_fail w = None ->
    exists st',
      csv_to_latex_table w input_csv output_tex caption label landscape
        header_lines st = (Ret true, st')
      /\ nwrites st'
         = (nwrites st + (if landscape then 2 else 0) + 20
            + 2 * (Z.to_nat header_lines + if (header_lines =? 0)%Z then 0 else 1)
            + (length data - Z.to_nat header_lines))%nat.
Proof.
  intros w input_csv output_tex caption label landscape header_lines st data
         Hne Hh Hopen Hwrite Hclose.
  destruct (csv_to_latex_table_reaches_output w input_csv output_tex caption
              label landscape header_lines st Hne Hh) as [out Hrun].
  rewrite Hrun.
  match goal with
  | |- context [try_except _ _ ?s] =>
      destruct (try_write_cases w output_tex _ _ s
                  (write_document_writes w caption label landscape
                     (ncols_of data) (repeat base_width (ncols_of data))
                     (header_rows_of data header_lines)
                     (data_rows_of data header_lines)))
        as [[_ Hr]|[Herr _]]
  end; cbn [stdout written nwrites] in *.
  - eexists. split; [exact Hr|]. cbn [nwrites].
    pose proof (document_of_length caption label landscape data header_lines Hh)
      as (_ & _ & Hlen).
    unfold document_of in Hlen. rewrite Hlen. lia.
  - exfalso. destruct Herr as [H|[(k & _ & H)|H]].
    + apply H. exact Hopen.
    + apply H. apply Hwrite.
    + apply H. exact Hclose.
Qed.

Lemma csv_to_latex_table_write_count_witness :
  exists st',
    csv_to_latex_table sample_world (lit "Book1.csv") (lit "output.tex")
      (lit "Summary") (lit "tab:summary") true 1 empty_state = (Ret true, st')
    /\ nwrites st' = 27%nat.
Proof.
  destruct (csv_to_latex_table_write_count sample_world (lit "Book1.csv")
              (lit "output.tex") (lit "Summary") (lit "tab:summary") true 1
              empty_state)
    as (st' & Hrun & Hn).
  - discriminate.
  - vm_compute. split; discriminate.
  - reflexivity.
  - reflexivity.
  - reflexivity.
  - exists st'. split; [exact Hrun|]. rewrite Hn. reflexivity.
Defined.

(** ** Header line counts below zero *)

(** X20. With rows read and a header line count below minus the number
    of rows, the conversion does not return: the first index of the data
    loop is out of range, and the [IndexError] reaches the caller, the
    output not yet opened. *)
Theorem csv_to_latex_table_negative_header_lines_raises :
  forall (w : world) (input_csv output_tex caption label : pystr)
         (landscape : bool) (header_lines : Z) (st : state),
    let data := loaded w input_csv (encodings_to_try (detect_encoding w input_csv)) in
    data <> [] -> header_lines < - Z.of_nat (length data) ->
    exists st',
      csv_to_latex_table w input_csv output_tex caption label landscape
        header_lines st
      = (Raise (Exception (lit "list index out of range")), st')
      /\ written st' = written st /\ nwrites st' = nwrites st.
Proof.
  intros w input_csv output_tex caption label landscape header_lines st data
         Hne Hneg.
  unfold csv_to_latex_table.
  match goal with
  | |- context [bind (read_loop _ _ _ _) ?k] =>
      destruct (csv_to_latex_table_reads w input_csv st k) as [out Hout]
  end.
  rewrite Hout. fold data.
  replace (nonempty data) with true by (destruct data; [congruence | reflexivity]).
  cbn [negb].
  destruct (Z.ltb_spec (Z.of_nat (length data)) header_lines) as [Hlt|_]; [lia|].
  rewrite (py_max_ncols data Hne).
  rewrite (bind_ret_step (lift _) _ _ _ _ eq_refl).
  rewrite (bind_ret_step (print _) _ _ _ _ eq_refl).
  cbv zeta.
  assert (Hr0 : range 0 header_lines = []).
  { unfold range. replace (Z.to_nat (header_lines - 0)) with 0%nat by lia.
    reflexivity. }
  rewrite Hr0. cbn [header_loop].
  rewrite (bind_ret_step (lift _) _ _ _ _ eq_refl).
  rewrite pad_rows_length.
  assert (Hr : exists rest, range header_lines (Z.of_nat (length data))
                            = header_lines :: rest).
  { unfold range.
    destruct (Z.to_nat (Z.of_nat (length data) - header_lines)) as [|m] eqn:E;
      [lia|].
    cbn [seq map]. rewrite Z.add_0_r. eexists. reflexivity. }
  destruct Hr as [rest ->]. cbn [data_loop].
  assert (Hidx : py_index (pad_rows (ncols_of data) data) header_lines
                 = Raise (Exception (lit "list index out of range")))
    by (unfold py_index; rewrite pad_rows_length;
        destruct (Z.ltb_spec header_lines 0); [|lia];
        destruct (Z.ltb_spec (Z.of_nat (length data) + header_lines) 0);
        [reflexivity | lia]).
  rewrite Hidx.
  eexists. split; [reflexivity|]. split; reflexivity.
Qed.

Lemma csv_to_latex_table_negative_header_lines_raises_witness :
  exists st',
    csv_to_latex_table sample_world (lit "Book1.csv") (lit "output.tex")
      (lit "Summary") (lit "tab:summary") true (-3) empty_state
    = (Raise (Exception (lit "list index out of range")), st')
    /\ written st' = written empty_state /\ nwrites st' = nwrites empty_state.
Proof.
  apply (csv_to_latex_table_negative_header_lines_raises sample_world
           (lit "Book1.csv") (lit "output.tex") (lit "Summary")
           (lit "tab:summary") true (-3) empty_state).
  - discriminate.
  - vm_compute. reflexivity.
Defined.

Lemma map_seq_from {A} (m : nat) :
  forall (f : nat -> A) (n : nat),
    map f (seq n m) = map (fun k => f (n + k)%nat) (seq 0 m).
Proof.
  induction m as [|m IH]; intros f n; [reflexivity|].
  cbn [seq map]. rewrite Nat.add_0_r. f_equal.
  rewrite (IH f (S n)), (IH (fun k => f (n + k)%nat) 1%nat).
  apply map_ext. intros k. f_equal. lia.
Qed.

Lemma range_split (a b c : Z) :
  a <= b <= c -> range a c = range a b ++ range b c.
Proof.
  intros H. unfold range.
  replace (Z.to_nat (c - a)) with (Z.to_nat (b - a) + Z.to_nat (c - b))%nat by lia.
  rewrite seq_app, map_app. f_equal.
  rewrite map_seq_from. apply map_ext. intros k. lia.
Qed.

Lemma data_loop_app (data : table) (a b : list Z) :
  forall acc : table,
    data_loop data (a ++ b) acc
    = match data_loop data a acc with
      | Ret rows => data_loop data b rows
      | Raise e => Raise e
      end.
Proof.
  induction a as [|i a IH]; intros acc; [reflexivity|].
  cbn [app data_loop]. destruct (py_index data i); [apply IH | reflexivity].
Qed.

Lemma py_index_from_end {A} (l : list A) (i : Z) (x : A) :
  i < 0 -> 0 <= Z.of_nat (length l) + i ->
  nth_error l (Z.to_nat (Z.of_nat (length l) + i)) = Some x ->
  py_index l i = Ret x.
Proof.
  intros Hi Hj Hx. unfold py_index.
  destruct (Z.ltb_spec i 0); [|lia].
  destruct (Z.ltb_spec (Z.of_nat (length l) + i) 0); [lia|].
  rewrite Hx. reflexivity.
Qed.

Lemma data_loop_from_end (data : table) (a : Z) (n : nat) :
  a < 0 -> 0 <= Z.of_nat (length data) + a ->
  forall (s : nat) (acc : table),
    a + Z.of_nat s + Z.of_nat n <= 0 ->
    data_loop data (map (fun k => a + Z.of_nat k) (seq s n)) acc
    = Ret (acc ++ map escape_row
                    (firstn n (skipn (Z.to_nat (Z.of_nat (length data) + a) + s)
                                     data))).
Proof.
  intros Ha Hlen. induction n as [|n IH]; intros s acc Hle.
  - simpl. rewrite app_nil_r. reflexivity.
  - destruct (nth_error_in_range data
                (Z.to_nat (Z.of_nat (length data) + a) + s)) as [x Hx]; [lia|].
    cbn [seq map data_loop].
    rewrite (py_index_from_end data (a + Z.of_nat s) x); [|lia|lia|].
    + rewrite IH by lia.
      rewrite (skipn_cons_nth _ _ _ Hx). cbn [firstn map].
      replace (Z.to_nat (Z.of_nat (length data) + a) + S s)%nat
        with (S (Z.to_nat (Z.of_nat (length data) + a) + s)) by lia.
      rewrite <- app_assoc. reflexivity.
    + replace (Z.to_nat (Z.of_nat (length data) + (a + Z.of_nat s)))
        with (Z.to_nat (Z.of_nat (length data) + a) + s)%nat by lia.
      exact Hx.
Qed.

(** X21. For a header line count from minus the number of rows up to
    zero the data loop counts from the end of the table first: it
    returns the last rows, as many as the count is below zero, and then
    all the rows, so these last rows come twice. *)
Theorem data_loop_negative_header_lines :
  forall (data : table) (header_lines : Z),
    - Z.of_nat (length data) <= header_lines <= 0 ->
    data_loop data (range header_lines (Z.of_nat (length data))) []
    = Ret (map escape_row
             (skipn (Z.to_nat (Z.of_nat (length data) + header_lines)) data
              ++ data)).
Proof.
  intros data header_lines Hh.
  rewrite (range_split header_lines 0 (Z.of_nat (length data))) by lia.
  rewrite data_loop_app.
  assert (Hfirst : data_loop data (range header_lines 0) []
                   = Ret (map escape_row
                            (skipn (Z.to_nat (Z.of_nat (length data) + header_lines))
                                   data))).
  { destruct (Z.eq_dec header_lines 0) as [->|Hnz].
    - rewrite Z.add_0_r, Nat2Z.id, skipn_all. reflexivity.
    - unfold range.
      rewrite (data_loop_from_end data header_lines _ ltac:(lia) ltac:(lia) 0 [])
        by lia.
      rewrite Nat.add_0_r. cbn [app]. f_equal. f_equal.
      apply firstn_all2. rewrite length_skipn. lia. }
  rewrite Hfirst. unfold range.
  rewrite (data_loop_from data 0 _ (Z.le_refl 0) 0) by (simpl; lia).
  cbn [Z.to_nat Nat.add skipn]. rewrite Z.sub_0_r, Nat2Z.id, firstn_all, map_app.
  reflexivity.
Qed.

Lemma data_loop_negative_header_lines_witness :
  data_loop [[lit "h"]; [lit "1"]; [lit "2"]] (range (-1) 3) []
  = Ret (map escape_row [[lit "2"]; [lit "h"]; [lit "1"]; [lit "2"]]).
Proof.
  apply (data_loop_negative_header_lines [[lit "h"]; [lit "1"]; [lit "2"]] (-1)).
  simpl. lia.
Defined.

(** ** The script *)

(** X22. The script never ends in an exception.  When the input file
    does not exist it prints the error and exits with status 1 before
    anything is read or written; otherwise it runs to its end, whether
    the conversion returns [True] or [False], and its last line tells
    which. *)
Theorem main_exit_status :
  forall (w : world) (path_exists : pystr -> bool) (st : state),
    (path_exists INPUT_CSV = false ->
     main w path_exists st
     = (Ret (Some 1),
        {| stdout := stdout st
                     ++ [banner;
                         lit "Error: Input file not found at 'Book1.csv'"];
           written := written st; nwrites := nwrites st |}))
    /\ (path_exists INPUT_CSV = true ->
        exists (success : bool) (st1 st' : state),
          csv_to_latex_table w INPUT_CSV OUTPUT_TEX TABLE_CAPTION TABLE_LABEL
            LANDSCAPE_MODE HEADER_LINES
            {| stdout := stdout st ++ [banner]; written := written st;
               nwrites := nwrites st |}
          = (Ret success, st1)
          /\ main w path_exists st = (Ret None, st')
          /\ written st' = written st1 /\ nwrites st' = nwrites st1
          /\ last (stdout st') []
             = if success then lit "& & & a & b & c \\"
               else nl ++ lit "Conversion failed. Check error messages above.").
Proof.
  intros w path_exists st. unfold main. split; intros Hp; rewrite Hp; cbn [negb].
  - rewrite (bind_ret_step (print _) _ _ _ _ eq_refl).
    rewrite (bind_ret_step (print _) _ _ _ _ eq_refl).
    unfold ret. cbn [stdout written nwrites]. rewrite <- app_assoc. reflexivity.
  - rewrite (bind_ret_step (print _) _ _ _ _ eq_refl).
    match goal with
    | |- context [csv_to_latex_table _ _ _ _ _ _ _ ?s] => set (st0 := s)
    end.
    assert (Hret : exists success st1,
               csv_to_latex_table w INPUT_CSV OUTPUT_TEX TABLE_CAPTION
                 TABLE_LABEL LANDSCAPE_MODE HEADER_LINES st0 = (Ret success, st1)).
    { destruct (csv_to_latex_table_cases w INPUT_CSV OUTPUT_TEX TABLE_CAPTION
                  TABLE_LABEL LANDSCAPE_MODE HEADER_LINES st0 ltac:(unfold HEADER_LINES; lia))
        as [(_ & s1 & H & _)
           |[(_ & _ & s1 & H & _)
            |[(_ & _ & _ & s1 & H & _)
             |(_ & _ & _ & _ & s1 & H & _)]]];
        eexists; eexists; exact H. }
    destruct Hret as (success & st1 & Hrun).
    exists success, st1. rewrite (bind_ret_step _ _ _ _ _ Hrun).
    destruct success.
    + eexists. split; [exact Hrun|]. split; [reflexivity|].
      cbn [stdout written nwrites].
      split; [reflexivity|]. split; [reflexivity|]. apply last_snoc.
    + eexists. split; [exact Hrun|]. split; [reflexivity|].
      cbn [stdout written nwrites].
      split; [reflexivity|]. split; [reflexivity|]. apply last_snoc.
Qed.

Lemma main_exit_status_witness :
  main sample_world (fun _ => false) empty_state
  = (Ret (Some 1),
     {| stdout := [banner; lit "Error: Input file not found at 'Book1.csv'"];
        written := []; nwrites := 0 |}).
Proof.
  apply (proj1 (main_exit_status sample_world (fun _ => false) empty_state)).
  reflexivity.
Defined.

(** ** The status a conversion returns *)

Lemma nonempty_true {A} (l : list A) : l <> [] -> nonempty l = true.
Proof. destruct l; [congruence | reflexivity]. Qed.

Lemma header_loop_rows_from (data : table) (header_lines : Z) :
  header_lines <= Z.of_nat (length data) ->
  header_loop data (range 0 header_lines) []
  = Ret (map (fun r => process_header_row (escape_row r) None)
             (firstn (Z.to_nat header_lines) data)).
Proof.
  intros H. destruct (Z.le_gt_cases 0 header_lines) as [Hpos|Hneg].
  - apply header_loop_rows. lia.
  - unfold range. replace (Z.to_nat (header_lines - 0)) with 0%nat by lia.
    replace (Z.to_nat header_lines) with 0%nat by lia. reflexivity.
Qed.

(** The data loop on any header line count that keeps its indices in
    range. *)
Lemma data_loop_rows_from (data : table) (header_lines : Z) :
  - Z.of_nat (length data) <= header_lines <= Z.of_nat (length data) ->
  data_loop data (range header_lines (Z.of_nat (length data))) []
  = Ret (map escape_row
             ((if header_lines <? 0
               then skipn (Z.to_nat (Z.of_nat (length data) + header_lines)) data
               else [])
              ++ skipn (Z.to_nat header_lines) data)).
Proof.
  intros H. destruct (Z.ltb_spec header_lines 0) as [Hneg|Hpos].
  - rewrite (range_split header_lines 0 (Z.of_nat (length data))) by lia.
    rewrite data_loop_app. unfold range.
    rewrite (data_loop_from_end data header_lines _ Hneg ltac:(lia) 0 []) by lia.
    rewrite (data_loop_from data 0 _ (Z.le_refl 0) 0) by (simpl; lia).
    replace (Z.to_nat header_lines) with 0%nat by lia.
    cbn [Z.to_nat Nat.add skipn app]. rewrite Nat.add_0_r, Z.sub_0_r, Nat2Z.id.
    rewrite firstn_all, map_app. f_equal. f_equal. f_equal.
    apply firstn_all2. rewrite length_skipn. lia.
  - cbn [app]. apply data_loop_rows. lia.
Qed.

Section Status.

Variables (w : world) (input_csv output_tex caption label : pystr).
Variables (landscape : bool) (header_lines : Z) (st : state).

(** With rows and a header line count that keeps the indices in range
    the conversion comes to the [try] with the output untouched. *)
Lemma csv_to_latex_table_reaches_output_from :
  let data := loaded w input_csv (encodings_to_try (detect_encoding w input_csv)) in
  data <> [] ->
  - Z.of_nat (length data) <= header_lines <= Z.of_nat (length data) ->
  exists out,
    csv_to_latex_table w input_csv output_tex caption label landscape
      header_lines st
    = try_except
        (with_open_w w output_tex
           (write_document w caption label landscape (ncols_of data)
              (repeat base_width (ncols_of data))
              (header_rows_of data header_lines)
              (data_rows_from data header_lines)) ;;;
         ret true)
        (fun e => print (lit "Error writing LaTeX: " ++ exn_str e) ;;; ret false)
        {| stdout := stdout st ++ out; written := written st;
           nwrites := nwrites st |}.
Proof.
  intros data Hne Hh. unfold csv_to_latex_table.
  match goal with
  | |- context [bind (read_loop _ _ _ _) ?k] =>
      destruct (csv_to_latex_table_reads w input_csv st k) as [out Hout]
  end.
  rewrite Hout. fold data.
  rewrite (nonempty_true data Hne). cbn [negb].
  destruct (Z.ltb_spec (Z.of_nat (length data)) header_lines) as [Hlt|_]; [lia|].
  rewrite (py_max_ncols data Hne).
  rewrite (bind_ret_step (lift _) _ _ _ _ eq_refl).
  rewrite (bind_ret_step (print _) _ _ _ _ eq_refl).
  cbv zeta.
  rewrite (header_loop_rows_from (pad_rows (ncols_of data) data) header_lines)
    by (rewrite pad_rows_length; lia).
  rewrite (bind_ret_step (lift _) _ _ _ _ eq_refl).
  rewrite (data_loop_rows_from (pad_rows (ncols_of data) data) header_lines)
    by (rewrite pad_rows_length; lia).
  rewrite (bind_ret_step (lift _) _ _ _ _ eq_refl).
  cbn [stdout written nwrites]. unfold data_rows_from, header_rows_of.
  rewrite pad_rows_length.
  eexists. rewrite <- app_assoc. reflexivity.
Qed.

End Status.

(** C10. For a header line count not below minus the number of rows
    read, the conversion always returns and never raises; it returns
    [False] exactly when no candidate encoding gives a non-empty list of
    rows, when there are fewer rows than header lines, or when opening,
    writing or closing the output fails, and then the last line printed
    is the diagnostic; otherwise it returns [True]. *)
Theorem csv_to_latex_table_status :
  forall (w : world) (input_csv output_tex caption label : pystr)
         (landscape : bool) (header_lines : Z) (st : state),
    let encs := encodings_to_try (detect_encoding w input_csv) in
    let data := loaded w input_csv encs in
    (data <> [] -> - Z.of_nat (length data) <= header_lines) ->
    exists (b : bool) (st' : state),
      csv_to_latex_table w input_csv output_tex caption label landscape
        header_lines st = (Ret b, st')
      /\ (b = false <->
          no_rows w input_csv encs
          \/ Z.of_nat (length data) < header_lines
          \/ output_error w output_tex (nwrites st)
               (length (document_from caption label landscape data header_lines)))
      /\ (b = false -> diagnostic_printed header_lines st').
Proof.
  intros w input_csv output_tex caption label landscape header_lines st encs data
         Hdom.
  pose proof (loaded_nil_iff w input_csv encs) as Hnil. fold data in Hnil.
  destruct (list_eq_dec (list_eq_dec (list_eq_dec N.eq_dec)) data [])
    as [Hempty|Hne].
  { (* no rows *)
    assert (Hrun : exists st',
               csv_to_latex_table w input_csv output_tex caption label landscape
                 header_lines st = (Ret false, st')
               /\ last (stdout st') [] = lit "Error: Could not read CSV data").
    { unfold csv_to_latex_table.
      match goal with
      | |- context [bind (read_loop _ _ _ _) ?k] =>
          destruct (csv_to_latex_table_reads w input_csv st k) as [out Hout]
      end.
      rewrite Hout. fold encs. fold data. rewrite Hempty. cbn [nonempty negb].
      rewrite (bind_ret_step (print _) _ _ _ _ eq_refl).
      eexists. split; [reflexivity|]. cbn [stdout]. apply last_snoc. }
    destruct Hrun as (st' & Hrun & Hlast).
    exists false, st'. split; [exact Hrun|]. split.
    - split; [intros _; left; apply Hnil; exact Hempty | reflexivity].
    - intros _. left. exact Hlast. }
  specialize (Hdom Hne).
  destruct (Z.lt_ge_cases (Z.of_nat (length data)) header_lines) as [Hlt|Hge].
  { (* too few rows *)
    assert (Hrun : exists st',
               csv_to_latex_table w input_csv output_tex caption label landscape
                 header_lines st = (Ret false, st')
               /\ last (stdout st') []
                  = lit "Error: Not enough rows for " ++ str_of_int header_lines
                    ++ lit " header lines").
    { unfold csv_to_latex_table.
      match goal with
      | |- context [bind (read_loop _ _ _ _) ?k] =>
          destruct (csv_to_latex_table_reads w input_csv st k) as [out Hout]
      end.
      rewrite Hout. fold encs. fold data.
      rewrite (nonempty_true data Hne). cbn [negb].
      destruct (Z.ltb_spec (Z.of_nat (length data)) header_lines) as [_|Hge];
        [|lia].
      rewrite (bind_ret_step (print _) _ _ _ _ eq_refl).
      eexists. split; [reflexivity|]. cbn [stdout]. apply last_snoc. }
    destruct Hrun as (st' & Hrun & Hlast).
    exists false, st'. split; [exact Hrun|]. split.
    - split; [intros _; right; left; exact Hlt | reflexivity].
    - intros _. right. left. exact Hlast. }
  destruct (csv_to_latex_table_reaches_output_from w input_csv output_tex caption
              label landscape header_lines st Hne (conj Hdom Hge)) as [out Hrun].
  fold encs in Hrun. fold data in Hrun.
  match type of Hrun with
  | _ = try_except _ _ ?s =>
      destruct (try_write_cases w output_tex _ _ s
                  (write_document_writes w caption label landscape
                     (ncols_of data) (repeat base_width (ncols_of data))
                     (header_rows_of data header_lines)
                     (data_rows_from data header_lines)))
        as [[Hok Hr]|[Herr (e & st' & Hr & Hlast)]]
  end; cbn [stdout written nwrites] in *.
  - eexists true, _. split; [exact (eq_trans Hrun Hr)|]. split.
    + split; [discriminate|].
      intros [Hno|[Hlt|Herr]].
      * apply Hnil in Hno. contradiction.
      * lia.
      * contradiction.
    + discriminate.
  - exists false, st'. split; [exact (eq_trans Hrun Hr)|]. split.
    + split; [intros _; right; right; exact Herr | reflexivity].
    + intros _. right. right. exists e. unfold diagnostic_printed.
      rewrite Hlast. apply last_snoc.
Qed.

Lemma csv_to_latex_table_status_witness :
  exists (b : bool) (st' : state),
    csv_to_latex_table sample_world (lit "Book1.csv") (lit "output.tex")
      (lit "Summary") (lit "tab:summary") true (-2) empty_state = (Ret b, st')
    /\ (b = false <->
        no_rows sample_world (lit "Book1.csv")
          (encodings_to_try (detect_encoding sample_world (lit "Book1.csv")))
        \/ Z.of_nat (length (loaded sample_world (lit "Book1.csv")
                               (encodings_to_try
                                  (detect_encoding sample_world (lit "Book1.csv")))))
           < -2
        \/ output_error sample_world (lit "output.tex") (nwrites empty_state)
             (length (document_from (lit "Summary") (lit "tab:summary") true
                        (loaded sample_world (lit "Book1.csv")
                           (encodings_to_try
                              (detect_encoding sample_world (lit "Book1.csv"))))
                        (-2))))
    /\ (b = false -> diagnostic_printed (-2) st').
Proof.
  apply (csv_to_latex_table_status sample_world (lit "Book1.csv")
           (lit "output.tex") (lit "Summary") (lit "tab:summary") true (-2)
           empty_state).
  intros _. vm_compute. discriminate.
Defined.

(** With two rows read and a header line count of -3 the conversion does
    not return a status: it raises. *)
Lemma csv_to_latex_table_status_counterexample :
  ~ exists (b : bool) (st' : state),
      csv_to_latex_table sample_world (lit "Book1.csv") (lit "output.tex")
        (lit "Summary") (lit "tab:summary") true (-3) empty_state = (Ret b, st').
Proof.
  intros (b & st' & H). vm_compute in H. discriminate H.
Qed.
